(** * DWG: a directed weighted graph over nested insertion-ordered maps

    Shallow embedding of the two copies of the [DWG] class of the
    repository:

    - [src/dwg.ts] (module [Strict]): [addVertex] rejects duplicates,
      [removeEdge] returns the removed weight, existence of an edge is
      tested through the truthiness of its weight;
    - the second copy of the class, the one the test suite imports
      (module [Replace]): [addVertex] replaces an existing vertex,
      [removeEdge] returns a boolean, existence is tested with [Map.has].

    The accessors ([vertexCount], [edgeCount], [find], [getEdges], [has],
    [getAllVertices]) are the same text in both copies and are embedded
    once, in module [Dwg]. *)

From Stdlib Require Import List String ZArith Bool Arith Lia.
Import ListNotations.

Set Implicit Arguments.

(** ** Keys and weights *)

(** The key discipline of a JavaScript [Map]: exact-match identity.  The
    vertex type is generic in the source; all the embedding needs from it
    is a decidable equality, which also stands for [===] on vertices. *)
Class EqDec (A : Type) := eq_dec : forall x y : A, {x = y} + {x <> y}.

#[export] Instance Z_EqDec : EqDec Z := Z.eq_dec.
#[export] Instance nat_EqDec : EqDec nat := Nat.eq_dec.
#[export] Instance string_EqDec : EqDec string := string_dec.

(** JavaScript truthiness of a weight, as tested by [if (!weight)].  The
    weight type is generic in the source; an instance says which of its
    values are truthy. *)
Class Truthy (W : Type) := truthy : W -> bool.

(** Strings: only the empty string is falsy. *)
#[export] Instance string_Truthy : Truthy string :=
  fun s => match s with EmptyString => false | _ => true end.
(** Integral numbers: only zero is falsy. *)
#[export] Instance Z_Truthy : Truthy Z := fun n => negb (Z.eqb n 0).
#[export] Instance bool_Truthy : Truthy bool := fun b => b.

(** ** JavaScript [Map] *)

(** A [Map] keeps its entries in insertion order and holds each key at
    most once.  It is embedded as the list of its entries, oldest first;
    [wf] is the representation invariant (no key twice). *)
Module JsMap.

Definition t (K V : Type) : Type := list (K * V).

Section Ops.
Context {K V : Type} `{EqDec K}.

(** [new Map()] *)
Definition empty : t K V := [].

(** [m.size] *)
Definition size (m : t K V) : nat := List.length m.

(** [m.get(k)]; [None] stands for [undefined]. *)
Fixpoint get (k : K) (m : t K V) : option V :=
  match m with
  | [] => None
  | (k', v) :: m' => if eq_dec k k' then Some v else get k m'
  end.

(** [m.has(k)] *)
Definition has (k : K) (m : t K V) : bool :=
  match get k m with Some _ => true | None => false end.

(** [m.set(k, v)]: an existing key keeps its position and takes the new
    value, a new key goes to the end. *)
Fixpoint set (k : K) (v : V) (m : t K V) : t K V :=
  match m with
  | [] => [(k, v)]
  | (k', v') :: m' =>
      if eq_dec k k' then (k', v) :: m' else (k', v') :: set k v m'
  end.

(** [m.delete(k)], the map afterwards: the entry of [k] is dropped (there
    is at most one, see [wf]) and the others keep their order.  The
    boolean that [delete] returns is [has k m] of the map before. *)
Definition delete (k : K) (m : t K V) : t K V :=
  filter (fun e => if eq_dec k (fst e) then false else true) m.

(** [m.keys()], [m.values()], [m.entries()], in insertion order. *)
Definition keys (m : t K V) : list K := map fst m.
Definition values (m : t K V) : list V := map snd m.
Definition entries (m : t K V) : list (K * V) := m.

Definition wf (m : t K V) : Prop := NoDup (keys m).

End Ops.

End JsMap.


(** ** Exceptions and methods *)

(** The exceptions of the class, with the message each is built with.
    [TypeError] is what a method call on [undefined] raises, behind a
    non-null assertion [!] of the source. *)
Inductive exn : Type :=
| Error (message : string)
| ReferenceError (message : string)
| TypeError (message : string).

(** How a call ends: it returns a value or throws. *)
Inductive completion (A : Type) : Type :=
| Normal (value : A)
| Throw (e : exn).
Arguments Throw {A} e.

(** A method of an object whose fields are of type [S]: from the fields
    before the call to the completion and the fields after it.  A throw
    keeps whatever was written before it. *)
Definition method (S A : Type) : Type := S -> completion A * S.

Definition ret {S A : Type} (a : A) : method S A := fun s => (Normal a, s).

Definition throw {S A : Type} (e : exn) : method S A := fun s => (Throw e, s).

Definition bind {S A B : Type} (m : method S A) (k : A -> method S B) : method S B :=
  fun s =>
    match m s with
    | (Normal a, s') => k a s'
    | (Throw e, s') => (Throw e, s')
    end.

(** [this], read as a value: the fields as they are now. *)
Definition this {S : Type} : method S S := fun s => (Normal s, s).

Notation "x <- m ;; k" := (bind m (fun x => k))
  (at level 61, m at next level, right associativity).
Notation "m ;; k" := (bind m (fun _ => k))
  (at level 61, right associativity).

(** [for (const x of xs) body(x);] over a list of values read off before
    the loop: the calls run in order, the first throw ends the loop. *)
Fixpoint for_of {S A B : Type} (xs : list A) (body : A -> method S B) : method S unit :=
  match xs with
  | [] => ret tt
  | x :: xs' => body x ;; for_of xs' body
  end.

(** The error taxonomy of the specification, read off the thrown value.
    The test suite tells the vertex errors apart by the word their message
    starts with ([to.throw('First')], [to.throw('Second')]). *)
Inductive position : Type := origin | destination.

Definition UnknownVertexError (p : position) (e : exn) : bool :=
  match e with
  | ReferenceError message =>
      match p with
      | origin => String.prefix "First vertex" message
      | destination => String.prefix "Second vertex" message
      end
  | _ => false
  end.

Definition DuplicateVertexError (e : exn) : bool :=
  match e with
  | Error message => String.eqb message "Vertex already exists in the graph"
  | _ => false
  end.

Definition EdgeNotFoundError (e : exn) : bool :=
  match e with
  | ReferenceError message => String.eqb message "No such edge exists in the graph"
  | _ => false
  end.

(** [raises P r]: the call whose outcome is [r] threw an exception of
    class [P]. *)
Definition raises {S A : Type} (P : exn -> bool) (r : completion A * S) : Prop :=
  exists e, fst r = Throw e /\ P e = true.

(** [returns a r]: the call whose outcome is [r] returned [a]. *)
Definition returns {S A : Type} (a : A) (r : completion A * S) : Prop :=
  fst r = Normal a.

(** ** The class: field and accessors (same text in both copies) *)

Module Dwg.

Section Class.
Context {Vertex Weight : Type} `{EqDec Vertex}.

(** [private readonly adjList: Map<Vertex, Map<Vertex, Weight>>].  Every
    inner map is made by [new Map()] in [addVertex] and is never handed
    out, so no two vertices share one: writing to the inner map of [v] is
    writing the entry of [v] back in place. *)
Record DWG : Type := { adjList : JsMap.t Vertex (JsMap.t Vertex Weight) }.

(** [constructor()] *)
Definition new : DWG := {| adjList := JsMap.empty |}.

(** [this.adjList = f(this.adjList)], for the in-place updates of the map. *)
Definition update (f : JsMap.t Vertex (JsMap.t Vertex Weight) ->
                       JsMap.t Vertex (JsMap.t Vertex Weight)) : method DWG unit :=
  fun g => (Normal tt, {| adjList := f (adjList g) |}).

(** [get vertexCount()] *)
Definition vertexCount (g : DWG) : nat := JsMap.size (adjList g).

(** [get edgeCount()] *)
Definition edgeCount (g : DWG) : nat :=
  fold_left (fun sum edgeMap => sum + JsMap.size edgeMap)
            (JsMap.values (adjList g)) 0.

(** [find(filterFn)] *)
Definition find (filterFn : Vertex -> bool) (g : DWG) : list Vertex :=
  fold_left (fun result vertex => if filterFn vertex then result ++ [vertex] else result)
            (JsMap.keys (adjList g)) [].

(** [getEdges(v)] *)
Definition getEdges (v : Vertex) (g : DWG) : list (Vertex * Weight) :=
  match JsMap.get v (adjList g) with
  | None => []
  | Some edges => fold_left (fun result edge => result ++ [edge]) (JsMap.entries edges) []
  end.

(** [has(v)] *)
Definition has (v : Vertex) (g : DWG) : bool := JsMap.has v (adjList g).

(** [getAllVertices()] *)
Definition getAllVertices (g : DWG) : list Vertex := JsMap.keys (adjList g).

(** The weight stored for the edge [v1 -> v2], if there is one. *)
Definition edge (v1 v2 : Vertex) (g : DWG) : option Weight :=
  match JsMap.get v1 (adjList g) with
  | None => None
  | Some edgeMap => JsMap.get v2 edgeMap
  end.

(** The representation invariant of the nested maps. *)
Definition wf (g : DWG) : Prop :=
  JsMap.wf (adjList g) /\
  forall v edgeMap, In (v, edgeMap) (adjList g) -> JsMap.wf edgeMap.

(** No edge dangles: what [getEdges] shows leads to a vertex of the graph. *)
Definition no_dangling (g : DWG) : Prop :=
  forall v1 v2 w, In (v2, w) (getEdges v1 g) -> has v2 g = true.

(** The vertex set of [g'] is that of [g], by its three observations:
    [getAllVertices], [vertexCount] and [has]. *)
Definition same_vertices (g g' : DWG) : Prop :=
  getAllVertices g' = getAllVertices g /\
  vertexCount g' = vertexCount g /\
  forall x, has x g' = has x g.

(** [g'] is [g] with the edge [v1 -> v2] deleted: that edge is gone,
    every other edge and the vertex set are as in [g]. *)
Definition without_edge (v1 v2 : Vertex) (g g' : DWG) : Prop :=
  edge v1 v2 g' = None /\
  (forall a b, a <> v1 \/ b <> v2 -> edge a b g' = edge a b g) /\
  same_vertices g g'.

End Class.

Arguments DWG Vertex Weight : clear implicits.

End Dwg.

Import Dwg.
Local Open Scope string_scope.
Local Open Scope list_scope.

(** ** [src/dwg.ts]: duplicates rejected, edges tested by truthiness *)

Module Strict.

Section Methods.
Context {Vertex Weight : Type} `{EqDec Vertex} `{Truthy Weight}.

Abbreviation DWG := (DWG Vertex Weight).

(** [addVertex(v)] *)
Definition addVertex (v : Vertex) : method DWG DWG :=
  g <- this ;;
  if JsMap.has v (adjList g)
  then throw (Error "Vertex already exists in the graph")
  else update (JsMap.set v JsMap.empty) ;; this.

(** [addEdge(v1, v2, w)].  [!edgeMap] holds of [undefined] only: a [Map]
    object is truthy. *)
Definition addEdge (v1 v2 : Vertex) (w : Weight) : method DWG DWG :=
  g <- this ;;
  match JsMap.get v1 (adjList g) with
  | None => throw (ReferenceError "First vertex doesn't exist in the graph")
  | Some edgeMap =>
      if negb (JsMap.has v2 (adjList g))
      then throw (ReferenceError "Second vertex doesn't exist in the graph")
      else update (JsMap.set v1 (JsMap.set v2 w edgeMap)) ;; this
  end.

(** [removeEdge(v1, v2)].  [!weight] holds when no weight is stored
    ([undefined]) and when the stored weight is falsy. *)
Definition removeEdge (v1 v2 : Vertex) : method DWG Weight :=
  g <- this ;;
  match JsMap.get v1 (adjList g) with
  | None => throw (ReferenceError "First vertex doesn't exist in the graph")
  | Some edgeMap =>
      match JsMap.get v2 edgeMap with
      | Some weight =>
          if negb (truthy weight)
          then throw (ReferenceError "Second vertex doesn't exist in the graph")
          else update (JsMap.set v1 (JsMap.delete v2 edgeMap)) ;; ret weight
      | None => throw (ReferenceError "Second vertex doesn't exist in the graph")
      end
  end.

(** [removeVertex(v)].  The loop runs over the keys of the edge map of
    [v] and calls [removeEdge(destVertex, v)], which writes to the edge
    map of [destVertex]; it touches the map under iteration only at
    [destVertex = v], where it deletes the key just visited, so the
    iterator sees the keys as they were before the loop. *)
Definition removeVertex (v : Vertex) : method DWG bool :=
  g <- this ;;
  match JsMap.get v (adjList g) with
  | None => ret false
  | Some edgeMap =>
      for_of (JsMap.keys edgeMap) (fun destVertex => removeEdge destVertex v) ;;
      update (JsMap.delete v) ;;
      ret true
  end.

(** [getWeight(v1, v2)] *)
Definition getWeight (v1 v2 : Vertex) : method DWG Weight :=
  g <- this ;;
  match JsMap.get v1 (adjList g) with
  | None => throw (ReferenceError "First vertex not found in the graph")
  | Some edgeMap =>
      match JsMap.get v2 edgeMap with
      | Some weight =>
          if negb (truthy weight)
          then throw (ReferenceError "Second vertex not found in the graph")
          else ret weight
      | None => throw (ReferenceError "Second vertex not found in the graph")
      end
  end.

(** A call of a method that writes to the graph or throws, and the graph
    it leaves behind, whether it returned or threw.  The accessors read
    the graph and leave it as it is. *)
Inductive call : Type :=
| AddVertex (v : Vertex)
| AddEdge (v1 v2 : Vertex) (w : Weight)
| RemoveEdge (v1 v2 : Vertex)
| RemoveVertex (v : Vertex)
| GetWeight (v1 v2 : Vertex).

Definition exec (c : call) (g : DWG) : DWG :=
  match c with
  | AddVertex v => snd (addVertex v g)
  | AddEdge v1 v2 w => snd (addEdge v1 v2 w g)
  | RemoveEdge v1 v2 => snd (removeEdge v1 v2 g)
  | RemoveVertex v => snd (removeVertex v g)
  | GetWeight v1 v2 => snd (getWeight v1 v2 g)
  end.

(** The graph after a sequence of calls on a new graph. *)
Definition run (cs : list call) : DWG := fold_left (fun g c => exec c g) cs new.

Definition reachable (g : DWG) : Prop := exists cs, g = run cs.

End Methods.

End Strict.

(** ** The copy the tests import: vertices replaced, edges tested by [has] *)

Module Replace.

Section Methods.
Context {Vertex Weight : Type} `{EqDec Vertex}.

Abbreviation DWG := (DWG Vertex Weight).

(** [removeVertex(v)].  The loop writes to the inner maps only; the outer
    map is not changed while it is iterated. *)
Definition removeVertex (v : Vertex) : method DWG bool :=
  g <- this ;;
  if negb (JsMap.has v (adjList g)) then ret false
  else
    update (map (fun '(vertex, edgeMap) =>
                   if eq_dec vertex v then (vertex, edgeMap)
                   else (vertex, JsMap.delete v edgeMap))) ;;
    update (JsMap.delete v) ;;
    ret true.

(** The body of that loop, as a function on the entries of the outer map. *)
Definition strip (v : Vertex) (e : Vertex * JsMap.t Vertex Weight) :
  Vertex * JsMap.t Vertex Weight :=
  let '(vertex, edgeMap) := e in
  if eq_dec vertex v then (vertex, edgeMap) else (vertex, JsMap.delete v edgeMap).

(** [addVertex(v)] *)
Definition addVertex (v : Vertex) : method DWG DWG :=
  g <- this ;;
  (if JsMap.has v (adjList g) then removeVertex v ;; ret tt else ret tt) ;;
  update (JsMap.set v JsMap.empty) ;;
  this.

(** What [this.adjList.get(v1)!] followed by a method call does when the
    vertex is missing; the [has] checks before it rule that out. *)
Definition undefined_receiver {A : Type} : method DWG A :=
  throw (TypeError "Cannot read properties of undefined").

(** [addEdge(v1, v2, w)] *)
Definition addEdge (v1 v2 : Vertex) (w : Weight) : method DWG DWG :=
  g <- this ;;
  if negb (JsMap.has v1 (adjList g))
  then throw (ReferenceError "First vertex doesn't exist in the graph")
  else if negb (JsMap.has v2 (adjList g))
  then throw (ReferenceError "Second vertex doesn't exist in the graph")
  else
    match JsMap.get v1 (adjList g) with
    | None => undefined_receiver
    | Some edgeMap => update (JsMap.set v1 (JsMap.set v2 w edgeMap)) ;; this
    end.

(** [removeEdge(v1, v2)]; it returns what [edgeMap.delete(v2)] returns. *)
Definition removeEdge (v1 v2 : Vertex) : method DWG bool :=
  g <- this ;;
  if negb (JsMap.has v1 (adjList g))
  then throw (ReferenceError "First vertex doesn't exist in the graph")
  else if negb (JsMap.has v2 (adjList g))
  then throw (ReferenceError "Second vertex doesn't exist in the graph")
  else
    match JsMap.get v1 (adjList g) with
    | None => undefined_receiver
    | Some edgeMap =>
        update (JsMap.set v1 (JsMap.delete v2 edgeMap)) ;;
        ret (JsMap.has v2 edgeMap)
    end.

(** [getWeight(v1, v2)].  After [edgeMap.has(v2)], [edgeMap.get(v2)!] is
    the stored weight. *)
Definition getWeight (v1 v2 : Vertex) : method DWG Weight :=
  g <- this ;;
  if negb (JsMap.has v1 (adjList g))
  then throw (ReferenceError "First vertex doesn't exist in the graph")
  else if negb (JsMap.has v2 (adjList g))
  then throw (ReferenceError "Second vertex doesn't exist in the graph")
  else
    match JsMap.get v1 (adjList g) with
    | None => undefined_receiver
    | Some edgeMap =>
        match JsMap.get v2 edgeMap with
        | None => throw (ReferenceError "No such edge exists in the graph")
        | Some weight => ret weight
        end
    end.

(** Calls, the graph a call leaves behind and the graph after a sequence
    of calls on a new graph, as for [src/dwg.ts]. *)
Inductive call : Type :=
| AddVertex (v : Vertex)
| AddEdge (v1 v2 : Vertex) (w : Weight)
| RemoveEdge (v1 v2 : Vertex)
| RemoveVertex (v : Vertex)
| GetWeight (v1 v2 : Vertex).

Definition exec (c : call) (g : DWG) : DWG :=
  match c with
  | AddVertex v => snd (addVertex v g)
  | AddEdge v1 v2 w => snd (addEdge v1 v2 w g)
  | RemoveEdge v1 v2 => snd (removeEdge v1 v2 g)
  | RemoveVertex v => snd (removeVertex v g)
  | GetWeight v1 v2 => snd (getWeight v1 v2 g)
  end.

Definition run (cs : list call) : DWG := fold_left (fun g c => exec c g) cs new.

Definition reachable (g : DWG) : Prop := exists cs, g = run cs.

End Methods.

End Replace.

(** ** The scenarios of the test suite, on numbers and strings *)

Module Scenario.

Definition G : Type := DWG Z string.

(** [addVertex(2); addVertex(5); addEdge(2, 5, '2 -> 5'); addEdge(5, 2, '5 -> 2')] *)
Definition basic : G :=
  Replace.run [Replace.AddVertex 2%Z; Replace.AddVertex 5%Z;
               Replace.AddEdge 2%Z 5%Z "2 -> 5"; Replace.AddEdge 5%Z 2%Z "5 -> 2"].

Definition basic_strict : G :=
  Strict.run [Strict.AddVertex 2%Z; Strict.AddVertex 5%Z;
              Strict.AddEdge 2%Z 5%Z "2 -> 5"; Strict.AddEdge 5%Z 2%Z "5 -> 2"].

(** One edge, [1 -> 2], between two vertices. *)
Definition one_edge (w : string) : G :=
  {| adjList := [(1%Z, [(2%Z, w)]); (2%Z, [])] |}.

End Scenario.

(** ** Facts about maps *)

Module JsMapFacts.
Import JsMap.

Section Ops.
Context {K V : Type} `{EqDec K}.
Implicit Types (k : K) (v : V) (m : t K V).

(** *** Lookup after update *)

Lemma get_set_eq k v m : get k (set k v m) = Some v.
Proof.
  induction m as [|[k' v'] m IH]; simpl.
  - destruct (eq_dec k k); congruence.
  - destruct (eq_dec k k') as [E|E]; simpl.
    + destruct (eq_dec k k'); congruence.
    + destruct (eq_dec k k'); congruence.
Qed.

Lemma get_set_ne k k' v m : k <> k' -> get k' (set k v m) = get k' m.
Proof.
  intros Hne. induction m as [|[k0 v0] m IH]; simpl.
  - destruct (eq_dec k' k); congruence.
  - destruct (eq_dec k k0) as [E|E]; simpl.
    + subst k0. destruct (eq_dec k' k); congruence.
    + destruct (eq_dec k' k0); congruence.
Qed.

Lemma get_delete_eq k m : get k (delete k m) = None.
Proof.
  induction m as [|[k' v'] m IH]; simpl; auto.
  destruct (eq_dec k k') as [E|E]; simpl; auto.
  destruct (eq_dec k k'); congruence.
Qed.

Lemma get_delete_ne k k' m : k <> k' -> get k' (delete k m) = get k' m.
Proof.
  intros Hne. induction m as [|[k0 v0] m IH]; simpl; auto.
  destruct (eq_dec k k0) as [E|E]; simpl.
  - subst k0. destruct (eq_dec k' k); congruence.
  - destruct (eq_dec k' k0); congruence.
Qed.

Lemma has_set_eq k v m : has k (set k v m) = true.
Proof. unfold has. now rewrite get_set_eq. Qed.

Lemma has_set_ne k k' v m : k <> k' -> has k' (set k v m) = has k' m.
Proof. intros. unfold has. now rewrite get_set_ne. Qed.

Lemma has_delete_eq k m : has k (delete k m) = false.
Proof. unfold has. now rewrite get_delete_eq. Qed.

Lemma has_delete_ne k k' m : k <> k' -> has k' (delete k m) = has k' m.
Proof. intros. unfold has. now rewrite get_delete_ne. Qed.

(** *** Lookup and the list of keys *)

Lemma get_None_keys k m : get k m = None <-> ~ In k (keys m).
Proof.
  induction m as [|[k' v'] m IH]; simpl.
  - tauto.
  - destruct (eq_dec k k') as [E|E].
    + split; [discriminate | intros Hn; exfalso; apply Hn; auto].
    + rewrite IH. split; [intros Hn [E'|Hin]; [congruence | tauto] | tauto].
Qed.

Lemma has_true_keys k m : has k m = true <-> In k (keys m).
Proof.
  unfold has. destruct (get k m) eqn:G.
  - split; auto. intros _.
    destruct (in_dec eq_dec k (keys m)) as [Hin|Hn]; auto.
    apply get_None_keys in Hn. congruence.
  - split; [discriminate|]. intros Hin. apply get_None_keys in G. tauto.
Qed.

Lemma has_false_get k m : has k m = false <-> get k m = None.
Proof. unfold has. destruct (get k m); split; congruence. Qed.

Lemma has_true_get k m : has k m = true <-> exists v, get k m = Some v.
Proof.
  unfold has. destruct (get k m) as [v|]; split; try congruence; eauto.
  intros [v Hv]. discriminate.
Qed.

Lemma get_In k v m : get k m = Some v -> In (k, v) m.
Proof.
  induction m as [|[k' v'] m IH]; simpl; [discriminate|].
  destruct (eq_dec k k') as [E|E].
  - intros [= ->]. subst. auto.
  - auto.
Qed.

Lemma In_get k v m : wf m -> In (k, v) m -> get k m = Some v.
Proof.
  unfold wf. induction m as [|[k' v'] m IH]; simpl; [tauto|].
  intros Hnd [Heq|Hin].
  - inversion Heq; subst. destruct (eq_dec k k); congruence.
  - inversion Hnd as [|? ? Hnotin Hnd']; subst.
    destruct (eq_dec k k') as [E|E]; auto.
    subst k'. exfalso. apply Hnotin.
    change k with (fst (k, v)). now apply in_map.
Qed.

(** *** Keys, size and well-formedness after update *)

Lemma keys_set_present k v m : has k m = true -> keys (set k v m) = keys m.
Proof.
  unfold has. induction m as [|[k' v'] m IH]; simpl; [discriminate|].
  destruct (eq_dec k k') as [E|E]; simpl; auto.
  intros Hh. now rewrite IH.
Qed.

Lemma keys_set_absent k v m : has k m = false -> keys (set k v m) = keys m ++ [k].
Proof.
  unfold has. induction m as [|[k' v'] m IH]; simpl; auto.
  destruct (eq_dec k k') as [E|E]; simpl; [discriminate|].
  intros Hh. now rewrite IH.
Qed.

Lemma size_set_present k v m : has k m = true -> size (set k v m) = size m.
Proof.
  intros Hh. unfold size. rewrite <- (length_map fst (set k v m)).
  fold (keys (set k v m)). rewrite keys_set_present by assumption.
  apply length_map.
Qed.

Lemma keys_delete k m :
  keys (delete k m) = filter (fun k' => if eq_dec k k' then false else true) (keys m).
Proof.
  induction m as [|[k' v'] m IH]; simpl; auto.
  destruct (eq_dec k k'); simpl; now rewrite IH.
Qed.

Lemma wf_empty : wf (empty : t K V).
Proof. constructor. Qed.

Lemma wf_set k v m : wf m -> wf (set k v m).
Proof.
  unfold wf. intros Hnd. destruct (has k m) eqn:Hh.
  - now rewrite keys_set_present.
  - rewrite keys_set_absent by assumption.
    apply NoDup_app; auto.
    + repeat constructor. simpl. tauto.
    + intros x Hx [<-|[]]. apply has_false_get, get_None_keys in Hh. tauto.
Qed.

Lemma wf_delete k m : wf m -> wf (delete k m).
Proof. unfold wf. rewrite keys_delete. apply NoDup_filter. Qed.

(** *** Entries after update *)

Lemma In_set k v k' v' m :
  In (k', v') (set k v m) -> (k' = k /\ v' = v) \/ In (k', v') m.
Proof.
  induction m as [|[k0 v0] m IH]; simpl.
  - intros [[= <- <-]|[]]. auto.
  - destruct (eq_dec k k0) as [E|E]; simpl.
    + intros [[= <- <-]|Hin]; auto.
    + intros [Heq|Hin]; auto. destruct (IH Hin); auto.
Qed.

Lemma In_delete k e m : In e (delete k m) -> In e m /\ fst e <> k.
Proof.
  unfold delete. rewrite filter_In. intros [Hin Hk]. split; auto.
  destruct (eq_dec k (fst e)); congruence.
Qed.

(** Replacing the value of a present key by one that [f] cannot tell
    from the old one leaves [map f] of the values as it was. *)
Lemma values_set_present (B : Type) (f : V -> B) k x y m :
  get k m = Some y -> f x = f y ->
  map f (values (set k x m)) = map f (values m).
Proof.
  intros Hg Hf. induction m as [|[k0 v0] m IH]; simpl in *; [discriminate|].
  destruct (eq_dec k k0) as [E|E]; simpl.
  - injection Hg as ->. now rewrite Hf.
  - now rewrite IH.
Qed.

(** *** Updates that change nothing *)

Lemma delete_absent k m : has k m = false -> delete k m = m.
Proof.
  unfold has. induction m as [|[k' v'] m IH]; simpl; auto.
  destruct (eq_dec k k') as [E|E]; simpl; [discriminate|].
  intros Hh. now rewrite IH.
Qed.

Lemma set_same k v m : get k m = Some v -> set k v m = m.
Proof.
  induction m as [|[k' v'] m IH]; simpl; [discriminate|].
  destruct (eq_dec k k') as [E|E].
  - now intros [= ->].
  - intros Hg. now rewrite IH.
Qed.

Lemma size_delete_present k m :
  wf m -> has k m = true -> S (size (delete k m)) = size m.
Proof.
  unfold wf. induction m as [|[k' v'] m IH]; [discriminate|].
  intros Hnd Hh. inversion Hnd as [|? ? Hnotin Hnd']; subst.
  unfold has in Hh. unfold size, delete in *. simpl in *.
  destruct (eq_dec k k') as [E|E]; simpl.
  - subst k'. f_equal.
    apply get_None_keys, has_false_get, delete_absent in Hnotin.
    unfold delete in Hnotin. now rewrite Hnotin.
  - f_equal. apply IH; auto.
Qed.

(** With keys held once, the entries for [k] after [set k v] are the one
    entry [(k, v)]. *)
Lemma entries_for_set k v m :
  wf m ->
  filter (fun e => if eq_dec k (fst e) then true else false) (entries (set k v m))
  = [(k, v)].
Proof.
  unfold wf, entries. induction m as [|[k' v'] m IH]; simpl.
  - intros _. destruct (eq_dec k k); congruence.
  - intros Hnd. inversion Hnd as [|? ? Hnotin Hnd']; subst.
    destruct (eq_dec k k') as [E|E]; simpl.
    + subst k'. destruct (eq_dec k k); [|congruence]. f_equal.
      apply get_None_keys in Hnotin. clear IH Hnd Hnd'.
      induction m as [|[k1 v1] m IHm]; simpl in *; auto.
      destruct (eq_dec k k1); [discriminate|]. auto.
    + destruct (eq_dec k k'); [congruence|]. auto.
Qed.

End Ops.

(** A pass over the entries that rewrites values and keeps keys. *)
Section MapValues.
Context {K V : Type} `{EqDec K}.
Variable f : K * V -> K * V.
Hypothesis f_key : forall e, fst (f e) = fst e.

Lemma keys_map (m : t K V) : keys (map f m) = keys m.
Proof.
  unfold keys. rewrite map_map. apply map_ext. exact f_key.
Qed.

Lemma get_map k (m : t K V) :
  get k (map f m) = option_map (fun x => snd (f (k, x))) (get k m).
Proof.
  induction m as [|[k0 v0] m IH]; simpl; auto.
  pose proof (f_key (k0, v0)) as Hk. destruct (f (k0, v0)) as [k1 v1] eqn:Hf.
  simpl in Hk. subst k1.
  destruct (eq_dec k k0) as [E|E]; auto.
  subst k0. simpl. now rewrite Hf.
Qed.

Lemma has_map k (m : t K V) : has k (map f m) = has k m.
Proof. unfold has. rewrite get_map. destruct (get k m); auto. Qed.

End MapValues.

End JsMapFacts.

Import JsMapFacts.

(** ** Facts about the accessors *)

Section AccessorFacts.
Context {Vertex Weight : Type} `{EqDec Vertex}.
Implicit Types (g : DWG Vertex Weight) (v : Vertex).

Lemma push_all (A : Type) (xs acc : list A) :
  fold_left (fun result x => result ++ [x]) xs acc = acc ++ xs.
Proof.
  revert acc. induction xs as [|x xs IH]; intros acc; simpl.
  - now rewrite app_nil_r.
  - rewrite IH, <- app_assoc. reflexivity.
Qed.

(** [getEdges(v)] is the list of entries of the edge map of [v]. *)
Lemma getEdges_entries v g :
  getEdges v g = match JsMap.get v (adjList g) with
                 | None => []
                 | Some edges => JsMap.entries edges
                 end.
Proof. unfold getEdges. destruct (JsMap.get v (adjList g)); auto. apply push_all. Qed.

Lemma getEdges_length v g :
  List.length (getEdges v g) = match JsMap.get v (adjList g) with
                               | None => 0
                               | Some edges => JsMap.size edges
                               end.
Proof. rewrite getEdges_entries. destruct (JsMap.get v (adjList g)); auto. Qed.

(** An entry of [getEdges(v1)] for [v2] is a stored edge [v1 -> v2]. *)
Lemma edge_getEdges v1 v2 w g :
  edge v1 v2 g = Some w -> In (v2, w) (getEdges v1 g).
Proof.
  unfold edge. rewrite getEdges_entries.
  destruct (JsMap.get v1 (adjList g)); [|discriminate]. apply get_In.
Qed.

Lemma getEdges_edge v1 v2 w g :
  In (v2, w) (getEdges v1 g) -> exists w', edge v1 v2 g = Some w'.
Proof.
  unfold edge. rewrite getEdges_entries.
  destruct (JsMap.get v1 (adjList g)) as [m|]; [|intros []].
  intros Hin. apply has_true_get, has_true_keys.
  change v2 with (fst (v2, w)). now apply in_map.
Qed.

Lemma sum_sizes (ms : list (JsMap.t Vertex Weight)) (acc : nat) :
  fold_left (fun sum edgeMap => sum + JsMap.size edgeMap) ms acc
  = acc + list_sum (map (@JsMap.size Vertex Weight) ms).
Proof.
  revert acc. induction ms as [|m ms IH]; intros acc; simpl; [lia|].
  rewrite IH. lia.
Qed.

Lemma edgeCount_sum g :
  edgeCount g = list_sum (map (@JsMap.size Vertex Weight) (JsMap.values (adjList g))).
Proof. unfold edgeCount. now rewrite sum_sizes. Qed.

(** With every vertex held once, summing the sizes of the edge maps is
    summing the length of [getEdges] over the vertices. *)
Lemma edgeCount_getEdges g :
  JsMap.wf (adjList g) ->
  edgeCount g = list_sum (map (fun v => List.length (getEdges v g)) (getAllVertices g)).
Proof.
  rewrite edgeCount_sum. unfold getAllVertices. destruct g as [adj]. simpl.
  intros Hwf.
  rewrite (map_ext (fun v => List.length (getEdges v {| adjList := adj |}))
                   (fun v => match JsMap.get v adj with
                             | None => 0 | Some edges => JsMap.size edges end))
    by (intros v; apply getEdges_length).
  unfold JsMap.wf in Hwf.
  induction adj as [|[k m] adj IH]; simpl; auto.
  inversion Hwf as [|? ? Hnotin Hnd]; subst.
  destruct (eq_dec k k); [|congruence]. f_equal.
  rewrite IH by assumption.
  f_equal. apply map_ext_in. intros v Hv.
  destruct (eq_dec v k); auto. subst v. tauto.
Qed.

End AccessorFacts.

(** ** Facts about writes to the adjacency map *)

Section WriteFacts.
Context {Vertex Weight : Type} `{EqDec Vertex}.
Implicit Types (g : DWG Vertex Weight) (v : Vertex)
               (adj : JsMap.t Vertex (JsMap.t Vertex Weight)).

Lemma has_of_keys x adj adj' :
  JsMap.keys adj' = JsMap.keys adj -> JsMap.has x adj' = JsMap.has x adj.
Proof.
  intros Hk. destruct (JsMap.has x adj) eqn:Hh.
  - apply has_true_keys. rewrite Hk. now apply has_true_keys.
  - destruct (JsMap.has x adj') eqn:Hh'; auto.
    apply has_true_keys in Hh'. rewrite Hk in Hh'.
    apply has_true_keys in Hh'. congruence.
Qed.

Lemma same_vertices_of_keys g g' :
  JsMap.keys (adjList g') = JsMap.keys (adjList g) -> same_vertices g g'.
Proof.
  intros Hk. unfold same_vertices, getAllVertices, vertexCount, has, JsMap.size.
  repeat split; auto.
  - rewrite <- (length_map fst (adjList g')), <- (length_map fst (adjList g)).
    unfold JsMap.keys in Hk. now rewrite Hk.
  - intros x. now apply has_of_keys.
Qed.

Lemma same_vertices_refl g : same_vertices g g.
Proof. now apply same_vertices_of_keys. Qed.

(** Writing the edge map of a vertex: how [edge] and [getEdges] read it. *)
Lemma edge_write v1 (x : JsMap.t Vertex Weight) a b adj :
  edge a b {| adjList := JsMap.set v1 x adj |} =
  if eq_dec a v1 then JsMap.get b x else edge a b {| adjList := adj |}.
Proof.
  unfold edge. simpl. destruct (eq_dec a v1) as [->|Hne].
  - now rewrite get_set_eq.
  - rewrite get_set_ne by congruence. reflexivity.
Qed.

Lemma getEdges_write v1 (x : JsMap.t Vertex Weight) a adj :
  getEdges a {| adjList := JsMap.set v1 x adj |} =
  if eq_dec a v1 then JsMap.entries x else getEdges a {| adjList := adj |}.
Proof.
  rewrite !getEdges_entries. simpl. destruct (eq_dec a v1) as [->|Hne].
  - now rewrite get_set_eq.
  - rewrite get_set_ne by congruence. reflexivity.
Qed.

Lemma edgeCount_write v1 (x y : JsMap.t Vertex Weight) adj :
  JsMap.get v1 adj = Some y -> JsMap.size x = JsMap.size y ->
  edgeCount {| adjList := JsMap.set v1 x adj |} = edgeCount {| adjList := adj |}.
Proof.
  intros Hg Hs. rewrite !edgeCount_sum. simpl.
  now rewrite (values_set_present (@JsMap.size Vertex Weight) v1 x adj Hg Hs).
Qed.

Lemma wf_new : wf (new : DWG Vertex Weight).
Proof. split; [constructor | intros v m []]. Qed.

Lemma wf_write v1 (x : JsMap.t Vertex Weight) adj :
  wf {| adjList := adj |} -> JsMap.wf x -> wf {| adjList := JsMap.set v1 x adj |}.
Proof.
  intros [Ho Hi] Hx. split; simpl in *.
  - now apply wf_set.
  - intros v m Hin. apply In_set in Hin as [[_ ->]|Hin]; eauto.
Qed.

Lemma wf_delete_vertex v adj :
  wf {| adjList := adj |} -> wf {| adjList := JsMap.delete v adj |}.
Proof.
  intros [Ho Hi]. split; simpl in *.
  - now apply wf_delete.
  - intros u m Hin. apply In_delete in Hin as [Hin _]. eauto.
Qed.

Lemma wf_inner v1 (edgeMap : JsMap.t Vertex Weight) g :
  wf g -> JsMap.get v1 (adjList g) = Some edgeMap -> JsMap.wf edgeMap.
Proof. intros [_ Hi] Hg. apply (Hi v1). now apply get_In. Qed.

(** A loop keeps what each of its calls keeps. *)
Lemma for_of_invariant (S A B : Type) (P : S -> Prop) (body : A -> method S B) :
  (forall x s, P s -> P (snd (body x s))) ->
  forall xs s, P s -> P (snd (for_of xs body s)).
Proof.
  intros Hbody xs. induction xs as [|x xs IH]; intros s Hs; simpl; auto.
  unfold bind. specialize (Hbody x s Hs).
  destruct (body x s) as [[b|e] s']; simpl in *; auto.
Qed.

End WriteFacts.

(** ** Facts about the copy with [has] checks *)

Ltac run_method :=
  unfold bind, this, ret, throw, update, Replace.undefined_receiver; simpl.

Section ReplaceFacts.
Context {Vertex Weight : Type} `{EqDec Vertex}.
Implicit Types (g : DWG Vertex Weight) (v : Vertex).

Lemma strip_key v (e : Vertex * JsMap.t Vertex Weight) :
  fst (Replace.strip v e) = fst e.
Proof. destruct e as [u m]. simpl. destruct (eq_dec u v); auto. Qed.

Lemma removeVertex_absent v g :
  has v g = false -> Replace.removeVertex v g = (Normal false, g).
Proof. unfold Replace.removeVertex, has. run_method. now intros ->. Qed.

Lemma removeVertex_present v g :
  has v g = true ->
  Replace.removeVertex v g =
  (Normal true, {| adjList := JsMap.delete v (map (Replace.strip v) (adjList g)) |}).
Proof. unfold Replace.removeVertex, has. run_method. now intros ->. Qed.

(** After [removeVertex(v)]: the edge maps of the other vertices have
    lost the key [v] and nothing else. *)
Lemma get_removed v u g :
  u <> v ->
  JsMap.get u (JsMap.delete v (map (Replace.strip v) (adjList g))) =
  option_map (JsMap.delete v) (JsMap.get u (adjList g)).
Proof.
  intros Hne. rewrite get_delete_ne by congruence.
  rewrite (get_map (Replace.strip v) (strip_key v)).
  destruct (JsMap.get u (adjList g)); simpl; auto.
  destruct (eq_dec u v); [congruence|reflexivity].
Qed.

Lemma has_removed v u g :
  has u {| adjList := JsMap.delete v (map (Replace.strip v) (adjList g)) |} =
  if eq_dec u v then false else has u g.
Proof.
  unfold has. simpl. destruct (eq_dec u v) as [->|Hne].
  - apply has_delete_eq.
  - rewrite has_delete_ne by congruence. apply (has_map (Replace.strip v) (strip_key v)).
Qed.

Lemma edge_removed v a b g :
  edge a b {| adjList := JsMap.delete v (map (Replace.strip v) (adjList g)) |} =
  if eq_dec a v then None else if eq_dec b v then None else edge a b g.
Proof.
  unfold edge. simpl. destruct (eq_dec a v) as [->|Ha].
  - now rewrite get_delete_eq.
  - rewrite get_removed by assumption.
    destruct (JsMap.get a (adjList g)) as [m|]; simpl.
    + destruct (eq_dec b v) as [->|Hb].
      * apply get_delete_eq.
      * apply get_delete_ne. congruence.
    + destruct (eq_dec b v); reflexivity.
Qed.

Lemma wf_removed v g :
  wf g -> wf {| adjList := JsMap.delete v (map (Replace.strip v) (adjList g)) |}.
Proof.
  intros [Ho Hi]. apply wf_delete_vertex. split; simpl.
  - unfold JsMap.wf. now rewrite (keys_map (Replace.strip v) (strip_key v)).
  - intros u m Hin. apply in_map_iff in Hin as [[u0 m0] [Heq Hin]].
    simpl in Heq. destruct (eq_dec u0 v); injection Heq as <- <-; eauto.
    apply wf_delete. eauto.
Qed.

(** [removeVertex(v)] on a vertex of the graph: it returns [true], [v] is
    gone, no edge starts or ends at [v], and every vertex and edge away
    from [v] is as before. *)
Lemma replace_removeVertex_spec v g :
  has v g = true ->
  exists g',
    Replace.removeVertex v g = (Normal true, g') /\
    has v g' = false /\
    (forall u, edge v u g' = None /\ edge u v g' = None) /\
    (forall u, getEdges v g' = [] /\ forall w, ~ In (v, w) (getEdges u g')) /\
    (forall u, u <> v -> has u g' = has u g) /\
    (forall a b, a <> v -> b <> v -> edge a b g' = edge a b g).
Proof.
  intros Hv. eexists. split; [now apply removeVertex_present|].
  assert (Hedge : forall u, edge v u {| adjList := JsMap.delete v (map (Replace.strip v) (adjList g)) |} = None /\
                            edge u v {| adjList := JsMap.delete v (map (Replace.strip v) (adjList g)) |} = None).
  { intros u. rewrite !edge_removed. destruct (eq_dec v v); [|congruence].
    destruct (eq_dec u v); auto. }
  repeat split.
  - rewrite has_removed. destruct (eq_dec v v); congruence.
  - apply Hedge.
  - apply Hedge.
  - rewrite getEdges_entries. simpl. now rewrite get_delete_eq.
  - intros w Hin. apply getEdges_edge in Hin as [w' Hw'].
    destruct (Hedge u) as [_ Hn]. congruence.
  - intros u Hu. rewrite has_removed. destruct (eq_dec u v); congruence.
  - intros a b Ha Hb. rewrite edge_removed.
    destruct (eq_dec a v); [congruence|]. destruct (eq_dec b v); congruence.
Qed.

End ReplaceFacts.

Section ReplaceCalls.
Context {Vertex Weight : Type} `{EqDec Vertex}.
Implicit Types (g : DWG Vertex Weight) (v : Vertex) (w : Weight).

Lemma no_dangling_edge g :
  no_dangling g <-> forall v1 v2 w, edge v1 v2 g = Some w -> has v2 g = true.
Proof.
  unfold no_dangling. split; intros Hnd v1 v2 w Hin.
  - eapply Hnd. eapply edge_getEdges. eassumption.
  - apply getEdges_edge in Hin as [w' Hw']. eauto.
Qed.

Lemma replace_addVertex_eq v g :
  Replace.addVertex v g =
  let g' := {| adjList := JsMap.set v JsMap.empty
                 (if has v g then JsMap.delete v (map (Replace.strip v) (adjList g))
                  else adjList g) |} in
  (Normal g', g').
Proof.
  unfold Replace.addVertex, Replace.removeVertex, has. run_method.
  destruct (JsMap.has v (adjList g)) eqn:Hv; simpl; rewrite ?Hv; reflexivity.
Qed.

Lemma replace_addEdge_no_origin v1 v2 w g :
  has v1 g = false ->
  Replace.addEdge v1 v2 w g =
  (Throw (ReferenceError "First vertex doesn't exist in the graph"), g).
Proof. unfold Replace.addEdge, has. run_method. now intros ->. Qed.

Lemma replace_addEdge_no_destination v1 v2 w g :
  has v1 g = true -> has v2 g = false ->
  Replace.addEdge v1 v2 w g =
  (Throw (ReferenceError "Second vertex doesn't exist in the graph"), g).
Proof. unfold Replace.addEdge, has. run_method. now intros -> ->. Qed.

Lemma replace_addEdge_ok v1 v2 w g :
  has v1 g = true -> has v2 g = true ->
  exists edgeMap,
    JsMap.get v1 (adjList g) = Some edgeMap /\
    let g' := {| adjList := JsMap.set v1 (JsMap.set v2 w edgeMap) (adjList g) |} in
    Replace.addEdge v1 v2 w g = (Normal g', g').
Proof.
  unfold Replace.addEdge, has. run_method. intros H1 H2. rewrite H1, H2. simpl.
  apply has_true_get in H1 as [edgeMap Hg]. rewrite Hg. eauto.
Qed.

Lemma replace_removeEdge_no_origin v1 v2 g :
  has v1 g = false ->
  Replace.removeEdge v1 v2 g =
  (Throw (ReferenceError "First vertex doesn't exist in the graph"), g).
Proof. unfold Replace.removeEdge, has. run_method. now intros ->. Qed.

Lemma replace_removeEdge_no_destination v1 v2 g :
  has v1 g = true -> has v2 g = false ->
  Replace.removeEdge v1 v2 g =
  (Throw (ReferenceError "Second vertex doesn't exist in the graph"), g).
Proof. unfold Replace.removeEdge, has. run_method. now intros -> ->. Qed.

Lemma replace_removeEdge_ok v1 v2 g :
  has v1 g = true -> has v2 g = true ->
  exists edgeMap,
    JsMap.get v1 (adjList g) = Some edgeMap /\
    Replace.removeEdge v1 v2 g =
    (Normal (JsMap.has v2 edgeMap),
     {| adjList := JsMap.set v1 (JsMap.delete v2 edgeMap) (adjList g) |}).
Proof.
  unfold Replace.removeEdge, has. run_method. intros H1 H2. rewrite H1, H2. simpl.
  apply has_true_get in H1 as [edgeMap Hg]. rewrite Hg. eauto.
Qed.

Lemma replace_getWeight_state v1 v2 g : snd (Replace.getWeight v1 v2 g) = g.
Proof.
  unfold Replace.getWeight. run_method.
  destruct (JsMap.has v1 (adjList g)); simpl; auto.
  destruct (JsMap.has v2 (adjList g)); simpl; auto.
  destruct (JsMap.get v1 (adjList g)) as [m|]; simpl; auto.
  destruct (JsMap.get v2 m); auto.
Qed.

(** Every call keeps the representation invariant. *)
Lemma replace_exec_wf (c : Replace.call) g : wf g -> wf (Replace.exec c g).
Proof.
  intros Hwf. destruct g as [adj]. destruct c as [v|v1 v2 w|v1 v2|v|v1 v2]; simpl.
  - rewrite replace_addVertex_eq. simpl. apply wf_write; [|constructor].
    destruct (has v {| adjList := adj |}); auto.
    now apply (wf_removed v) in Hwf.
  - destruct (has v1 {| adjList := adj |}) eqn:H1;
      [|now rewrite replace_addEdge_no_origin].
    destruct (has v2 {| adjList := adj |}) eqn:H2;
      [|now rewrite replace_addEdge_no_destination].
    destruct (replace_addEdge_ok v1 v2 w _ H1 H2) as (m & Hm & ->). simpl.
    apply wf_write; auto. apply wf_set. eapply wf_inner; eauto.
  - destruct (has v1 {| adjList := adj |}) eqn:H1;
      [|now rewrite replace_removeEdge_no_origin].
    destruct (has v2 {| adjList := adj |}) eqn:H2;
      [|now rewrite replace_removeEdge_no_destination].
    destruct (replace_removeEdge_ok v1 v2 _ H1 H2) as (m & Hm & ->). simpl.
    apply wf_write; auto. apply wf_delete. eapply wf_inner; eauto.
  - destruct (has v {| adjList := adj |}) eqn:Hv.
    + rewrite removeVertex_present by assumption. simpl.
      now apply (wf_removed v) in Hwf.
    + now rewrite removeVertex_absent.
  - now rewrite replace_getWeight_state.
Qed.

Lemma replace_run_snoc (cs : list (@Replace.call Vertex Weight)) c :
  Replace.run (cs ++ [c]) = Replace.exec c (Replace.run cs).
Proof. unfold Replace.run. now rewrite fold_left_app. Qed.

Lemma replace_reachable_ind (P : DWG Vertex Weight -> Prop) :
  P new -> (forall c g, P g -> P (Replace.exec c g)) ->
  forall g, Replace.reachable g -> P g.
Proof.
  intros Hnew Hstep g [cs ->].
  induction cs as [|c cs IH] using rev_ind; [exact Hnew|].
  rewrite replace_run_snoc. now apply Hstep.
Qed.

Lemma replace_reachable_wf g : Replace.reachable g -> wf g.
Proof. apply replace_reachable_ind; [apply wf_new | apply replace_exec_wf]. Qed.

End ReplaceCalls.

Section ReplaceInvariant.
Context {Vertex Weight : Type} `{EqDec Vertex}.
Implicit Types (g : DWG Vertex Weight) (v : Vertex) (w : Weight).

Lemma has_write v1 (x : JsMap.t Vertex Weight) u g :
  has v1 g = true ->
  has u {| adjList := JsMap.set v1 x (adjList g) |} = has u g.
Proof.
  intros H1. unfold has. simpl. apply has_of_keys. now apply keys_set_present.
Qed.

Lemma get_set_cases (k k' : Vertex) (x : Weight) (m : JsMap.t Vertex Weight) :
  JsMap.get k' (JsMap.set k x m) = if eq_dec k' k then Some x else JsMap.get k' m.
Proof.
  destruct (eq_dec k' k) as [->|Hne].
  - apply get_set_eq.
  - apply get_set_ne. congruence.
Qed.

Lemma get_delete_cases (k k' : Vertex) (m : JsMap.t Vertex Weight) :
  JsMap.get k' (JsMap.delete k m) = if eq_dec k' k then None else JsMap.get k' m.
Proof.
  destruct (eq_dec k' k) as [->|Hne].
  - apply get_delete_eq.
  - apply get_delete_ne. congruence.
Qed.

(** Every call keeps the edges from dangling. *)
Lemma replace_exec_no_dangling (c : Replace.call) g :
  no_dangling g -> no_dangling (Replace.exec c g).
Proof.
  rewrite !no_dangling_edge. intros Hnd.
  destruct c as [v|v1 v2 w|v1 v2|v|v1 v2]; simpl.
  - rewrite replace_addVertex_eq. simpl. intros a b w0.
    rewrite edge_write. destruct (eq_dec a v) as [->|Ha]; [discriminate|].
    unfold has at 2. simpl.
    destruct (eq_dec b v) as [->|Hb]; [intros _; apply has_set_eq|].
    rewrite has_set_ne by congruence.
    destruct (has v g) eqn:Hv.
    + rewrite edge_removed. destruct (eq_dec a v); [discriminate|].
      destruct (eq_dec b v); [discriminate|]. intros He.
      pose proof (has_removed v b g) as Hr. unfold has at 1 in Hr. simpl in Hr.
      rewrite Hr. destruct (eq_dec b v); [congruence|]. eauto.
    + destruct g as [adj]. simpl. apply Hnd.
  - destruct (has v1 g) eqn:H1; [|now rewrite replace_addEdge_no_origin].
    destruct (has v2 g) eqn:H2; [|now rewrite replace_addEdge_no_destination].
    destruct (replace_addEdge_ok v1 v2 w _ H1 H2) as (m & Hm & ->). simpl.
    intros a b w0. rewrite edge_write, has_write by assumption.
    destruct (eq_dec a v1) as [->|Ha].
    + rewrite get_set_cases. destruct (eq_dec b v2) as [->|Hb]; [auto|].
      intros Hg. apply (Hnd v1 b w0). unfold edge. now rewrite Hm.
    + destruct g as [adj]. apply Hnd.
  - destruct (has v1 g) eqn:H1; [|now rewrite replace_removeEdge_no_origin].
    destruct (has v2 g) eqn:H2; [|now rewrite replace_removeEdge_no_destination].
    destruct (replace_removeEdge_ok v1 v2 _ H1 H2) as (m & Hm & ->). simpl.
    intros a b w0. rewrite edge_write, has_write by assumption.
    destruct (eq_dec a v1) as [->|Ha].
    + rewrite get_delete_cases. destruct (eq_dec b v2) as [->|Hb]; [discriminate|].
      intros Hg. apply (Hnd v1 b w0). unfold edge. now rewrite Hm.
    + destruct g as [adj]. apply Hnd.
  - destruct (has v g) eqn:Hv.
    + rewrite removeVertex_present by assumption. simpl. intros a b w0.
      rewrite edge_removed, has_removed.
      destruct (eq_dec a v); [discriminate|].
      destruct (eq_dec b v); [discriminate|]. apply Hnd.
    + now rewrite removeVertex_absent.
  - now rewrite replace_getWeight_state.
Qed.

(** In the copy with [has] checks no sequence of calls leaves a dangling
    edge. *)
Lemma replace_reachable_no_dangling g : Replace.reachable g -> no_dangling g.
Proof.
  apply replace_reachable_ind; [|apply replace_exec_no_dangling].
  intros v1 v2 w [].
Qed.

End ReplaceInvariant.

(** ** Facts about [src/dwg.ts] *)

Section StrictCalls.
Context {Vertex Weight : Type} `{EqDec Vertex} `{Truthy Weight}.
Implicit Types (g : DWG Vertex Weight) (v : Vertex) (w : Weight).

Lemma strict_addVertex_present v g :
  has v g = true ->
  Strict.addVertex v g = (Throw (Error "Vertex already exists in the graph"), g).
Proof. unfold Strict.addVertex, has. run_method. now intros ->. Qed.

Lemma strict_addVertex_absent v g :
  has v g = false ->
  let g' := {| adjList := JsMap.set v JsMap.empty (adjList g) |} in
  Strict.addVertex v g = (Normal g', g').
Proof. unfold Strict.addVertex, has. run_method. now intros ->. Qed.

Lemma strict_addEdge_no_origin v1 v2 w g :
  has v1 g = false ->
  Strict.addEdge v1 v2 w g =
  (Throw (ReferenceError "First vertex doesn't exist in the graph"), g).
Proof.
  unfold Strict.addEdge, has. run_method. intros H1.
  apply has_false_get in H1. now rewrite H1.
Qed.

Lemma strict_addEdge_no_destination v1 v2 w g :
  has v1 g = true -> has v2 g = false ->
  Strict.addEdge v1 v2 w g =
  (Throw (ReferenceError "Second vertex doesn't exist in the graph"), g).
Proof.
  unfold Strict.addEdge, has. run_method. intros H1 H2.
  apply has_true_get in H1 as [m Hm]. now rewrite Hm, H2.
Qed.

Lemma strict_addEdge_ok v1 v2 w g :
  has v1 g = true -> has v2 g = true ->
  exists edgeMap,
    JsMap.get v1 (adjList g) = Some edgeMap /\
    let g' := {| adjList := JsMap.set v1 (JsMap.set v2 w edgeMap) (adjList g) |} in
    Strict.addEdge v1 v2 w g = (Normal g', g').
Proof.
  unfold Strict.addEdge, has. run_method. intros H1 H2.
  apply has_true_get in H1 as [m Hm]. rewrite Hm, H2. eauto.
Qed.

Lemma strict_removeEdge_no_origin v1 v2 g :
  has v1 g = false ->
  Strict.removeEdge v1 v2 g =
  (Throw (ReferenceError "First vertex doesn't exist in the graph"), g).
Proof.
  unfold Strict.removeEdge, has. run_method. intros H1.
  apply has_false_get in H1. now rewrite H1.
Qed.

Lemma strict_removeEdge_no_weight v1 v2 g :
  has v1 g = true -> edge v1 v2 g = None ->
  Strict.removeEdge v1 v2 g =
  (Throw (ReferenceError "Second vertex doesn't exist in the graph"), g).
Proof.
  unfold Strict.removeEdge, has, edge. run_method. intros H1.
  apply has_true_get in H1 as [m Hm]. rewrite Hm. now intros ->.
Qed.

Lemma strict_removeEdge_falsy v1 v2 w g :
  edge v1 v2 g = Some w -> truthy w = false ->
  Strict.removeEdge v1 v2 g =
  (Throw (ReferenceError "Second vertex doesn't exist in the graph"), g).
Proof.
  unfold Strict.removeEdge, edge. run_method.
  destruct (JsMap.get v1 (adjList g)) as [m|]; [|discriminate].
  now intros -> ->.
Qed.

Lemma strict_removeEdge_truthy v1 v2 w g :
  edge v1 v2 g = Some w -> truthy w = true ->
  exists edgeMap,
    JsMap.get v1 (adjList g) = Some edgeMap /\
    Strict.removeEdge v1 v2 g =
    (Normal w, {| adjList := JsMap.set v1 (JsMap.delete v2 edgeMap) (adjList g) |}).
Proof.
  unfold Strict.removeEdge, edge. run_method.
  destruct (JsMap.get v1 (adjList g)) as [m|]; [|discriminate].
  intros -> ->. simpl. eauto.
Qed.

(** What a call of [removeEdge] can leave behind: the graph as it was, or
    the graph with one edge map rewritten without [v2]. *)
Lemma strict_removeEdge_state v1 v2 g :
  snd (Strict.removeEdge v1 v2 g) = g \/
  exists edgeMap,
    JsMap.get v1 (adjList g) = Some edgeMap /\
    snd (Strict.removeEdge v1 v2 g) =
    {| adjList := JsMap.set v1 (JsMap.delete v2 edgeMap) (adjList g) |}.
Proof.
  destruct (edge v1 v2 g) as [w|] eqn:He.
  - destruct (truthy w) eqn:Ht.
    + right. destruct (strict_removeEdge_truthy _ _ _ He Ht) as (m & Hm & ->). eauto.
    + left. now rewrite (strict_removeEdge_falsy _ _ _ He Ht).
  - left. destruct (has v1 g) eqn:H1.
    + now rewrite strict_removeEdge_no_weight.
    + now rewrite strict_removeEdge_no_origin.
Qed.

Lemma strict_getWeight_state v1 v2 g : snd (Strict.getWeight v1 v2 g) = g.
Proof.
  unfold Strict.getWeight. run_method.
  destruct (JsMap.get v1 (adjList g)) as [m|]; simpl; auto.
  destruct (JsMap.get v2 m) as [w|]; simpl; auto.
  destruct (truthy w); auto.
Qed.

Lemma strict_removeEdge_wf v1 v2 g : wf g -> wf (snd (Strict.removeEdge v1 v2 g)).
Proof.
  intros Hwf. destruct (strict_removeEdge_state v1 v2 g) as [->|(m & Hm & ->)]; auto.
  destruct g as [adj]. apply wf_write; auto. apply wf_delete. eapply wf_inner; eauto.
Qed.

Lemma strict_removeEdge_keys v1 v2 g :
  JsMap.keys (adjList (snd (Strict.removeEdge v1 v2 g))) = JsMap.keys (adjList g).
Proof.
  destruct (strict_removeEdge_state v1 v2 g) as [->|(m & Hm & ->)]; auto.
  simpl. apply keys_set_present. apply has_true_get. eauto.
Qed.

(** Every call keeps the representation invariant, a [removeVertex] that
    throws half-way included. *)
Lemma strict_exec_wf (c : Strict.call) g : wf g -> wf (Strict.exec c g).
Proof.
  intros Hwf. destruct c as [v|v1 v2 w|v1 v2|v|v1 v2]; simpl.
  - destruct (has v g) eqn:Hv.
    + now rewrite strict_addVertex_present.
    + rewrite strict_addVertex_absent by assumption. simpl.
      destruct g as [adj]. apply wf_write; auto. constructor.
  - destruct (has v1 g) eqn:H1; [|now rewrite strict_addEdge_no_origin].
    destruct (has v2 g) eqn:H2; [|now rewrite strict_addEdge_no_destination].
    destruct (strict_addEdge_ok v1 v2 w _ H1 H2) as (m & Hm & ->). simpl.
    destruct g as [adj]. apply wf_write; auto. apply wf_set. eapply wf_inner; eauto.
  - now apply strict_removeEdge_wf.
  - unfold Strict.removeVertex. run_method.
    destruct (JsMap.get v (adjList g)) as [m|]; simpl; auto.
    pose proof (for_of_invariant (fun g => wf g)
                  (fun destVertex => Strict.removeEdge destVertex v)
                  (fun x s => @strict_removeEdge_wf x v s) (JsMap.keys m) g Hwf) as Hloop.
    destruct (for_of (JsMap.keys m) (fun destVertex => Strict.removeEdge destVertex v) g)
      as [[[]|e] [adj']]; simpl in *; auto.
    now apply wf_delete_vertex.
  - now rewrite strict_getWeight_state.
Qed.

Lemma strict_run_snoc (cs : list (@Strict.call Vertex Weight)) c :
  Strict.run (cs ++ [c]) = Strict.exec c (Strict.run cs).
Proof. unfold Strict.run. now rewrite fold_left_app. Qed.

Lemma strict_reachable_wf g : Strict.reachable g -> wf g.
Proof.
  intros [cs ->]. induction cs as [|c cs IH] using rev_ind; [apply wf_new|].
  rewrite strict_run_snoc. now apply strict_exec_wf.
Qed.

End StrictCalls.

(** ** The test suite, replayed on the copy it imports *)

Section TestSuite.
Import Scenario.
Local Open Scope Z_scope.

Example test_counts : vertexCount basic = 2%nat /\ edgeCount basic = 2%nat.
Proof. split; reflexivity. Qed.

Example test_has : has 2 basic = true /\ has 5 basic = true /\ has 3 basic = false.
Proof. repeat split. Qed.

Example test_getEdges :
  getEdges 2 basic = [(5, "2 -> 5")] /\ getEdges 5 basic = [(2, "5 -> 2")].
Proof. split; reflexivity. Qed.

Example test_find :
  find (Z.eqb 2) basic = [2] /\ find (Z.eqb 5) basic = [5] /\ find (Z.eqb 1) basic = [].
Proof. repeat split. Qed.

Example test_getAllVertices : getAllVertices basic = [2; 5].
Proof. reflexivity. Qed.

Example test_removeEdge :
  let g1 := snd (Replace.removeEdge 2 5 basic) in
  returns true (Replace.removeEdge 2 5 basic) /\
  getEdges 2 g1 = [] /\ vertexCount g1 = 2%nat /\ edgeCount g1 = 1%nat /\
  returns false (Replace.removeEdge 2 5 g1).
Proof. repeat split. Qed.

Example test_removeVertex :
  let g1 := snd (Replace.removeEdge 2 5 basic) in
  let g2 := snd (Replace.removeVertex 2 g1) in
  returns true (Replace.removeVertex 2 g1) /\
  returns false (Replace.removeVertex 2 g2) /\
  returns false (Replace.removeVertex 1 g2) /\
  vertexCount g2 = 1%nat /\ edgeCount g2 = 0%nat.
Proof. repeat split. Qed.

Example test_overwriting :
  let g : G := Replace.run [Replace.AddVertex 1; Replace.AddVertex 2;
                            Replace.AddEdge 1 2 "foo"; Replace.AddEdge 1 2 "bar"] in
  let g' := snd (Replace.addVertex 2 g) in
  getEdges 1 g = [(2, "bar")] /\ edgeCount g = 1%nat /\
  getEdges 1 g' = [] /\ edgeCount g' = 0%nat /\ vertexCount g' = 2%nat.
Proof. repeat split. Qed.

(** In [src/dwg.ts] an edge whose weight is the empty string is stored
    and shown by [getEdges], and neither read by [getWeight] nor removed
    by [removeEdge]. *)
Example strict_empty_weight :
  let g : G := Strict.run [Strict.AddVertex 1; Strict.AddVertex 2;
                           Strict.AddEdge 1 2 ""] in
  getEdges 1 g = [(2, "")] /\
  Strict.getWeight 1 2 g =
    (Throw (ReferenceError "Second vertex not found in the graph"), g) /\
  Strict.removeEdge 1 2 g =
    (Throw (ReferenceError "Second vertex doesn't exist in the graph"), g).
Proof. repeat split. Qed.

End TestSuite.

(** ** Properties of the specification *)

(** *** getWeight *)

Section GetWeight.
Context {Vertex Weight : Type} `{EqDec Vertex} `{Truthy Weight}.
Implicit Types (g : DWG Vertex Weight) (v : Vertex) (w : Weight).

(** C1, amended.  In the copy with [has] checks, [getWeight(v1, v2)]
    raises UnknownVertexError("origin") if [v1] is absent,
    UnknownVertexError("destination") if [v1] is present and [v2] is
    absent, EdgeNotFoundError if both are present and no edge [v1 -> v2]
    exists, and otherwise returns the stored weight of the edge, whatever
    its value.  In [src/dwg.ts] it raises UnknownVertexError("origin") if
    [v1] is absent, the "Second vertex" error if [v1] is present and no
    weight is stored for [v1 -> v2], and returns a stored truthy weight.
    In both the graph is left as it was. *)
Theorem getWeight_spec g v1 v2 :
  ((has v1 g = false ->
    raises (UnknownVertexError origin) (Replace.getWeight v1 v2 g)) /\
   (has v1 g = true -> has v2 g = false ->
    raises (UnknownVertexError destination) (Replace.getWeight v1 v2 g)) /\
   (has v1 g = true -> has v2 g = true -> edge v1 v2 g = None ->
    raises EdgeNotFoundError (Replace.getWeight v1 v2 g)) /\
   (forall w, has v2 g = true -> edge v1 v2 g = Some w ->
    returns w (Replace.getWeight v1 v2 g)) /\
   snd (Replace.getWeight v1 v2 g) = g) /\
  ((has v1 g = false ->
    raises (UnknownVertexError origin) (Strict.getWeight v1 v2 g)) /\
   (has v1 g = true -> edge v1 v2 g = None ->
    raises (UnknownVertexError destination) (Strict.getWeight v1 v2 g)) /\
   (forall w, edge v1 v2 g = Some w -> truthy w = true ->
    returns w (Strict.getWeight v1 v2 g)) /\
   snd (Strict.getWeight v1 v2 g) = g).
Proof.
  split; [split; [|split; [|split; [|split]]] | split; [|split; [|split]]].
  - intros H1. eexists. unfold Replace.getWeight, has in *. run_method.
    rewrite H1. simpl. split; reflexivity.
  - intros H1 H2. eexists. unfold Replace.getWeight, has in *. run_method.
    rewrite H1, H2. simpl. split; reflexivity.
  - intros H1 H2 He. eexists. unfold Replace.getWeight, has, edge in *. run_method.
    rewrite H1, H2. simpl.
    destruct (JsMap.get v1 (adjList g)) as [m|] eqn:Hm.
    + rewrite He. simpl. split; reflexivity.
    + apply has_true_get in H1 as [m Hm']. congruence.
  - intros w H2 He. unfold returns, Replace.getWeight, has, edge in *. run_method.
    destruct (JsMap.get v1 (adjList g)) as [m|] eqn:Hm; [|discriminate].
    assert (H1 : JsMap.has v1 (adjList g) = true) by (apply has_true_get; eauto).
    rewrite H1, H2. simpl. rewrite ?Hm, He. reflexivity.
  - apply replace_getWeight_state.
  - intros H1. eexists. unfold Strict.getWeight, has in *. run_method.
    apply has_false_get in H1. rewrite H1. simpl. split; reflexivity.
  - intros H1 He. eexists. unfold Strict.getWeight, has, edge in *. run_method.
    apply has_true_get in H1 as [m Hm]. rewrite Hm in *. rewrite He. simpl.
    split; reflexivity.
  - intros w He Ht. unfold returns, Strict.getWeight, edge in *. run_method.
    destruct (JsMap.get v1 (adjList g)) as [m|]; [|discriminate].
    now rewrite He, Ht.
  - apply strict_getWeight_state.
Qed.

End GetWeight.

(** [getWeight_spec] on the graph of the test suite: the four outcomes of
    the copy with [has] checks, and a stored weight read back in
    [src/dwg.ts]. *)
Lemma getWeight_spec_witness :
  raises (UnknownVertexError origin) (Replace.getWeight 1%Z 2%Z Scenario.basic) /\
  raises (UnknownVertexError destination) (Replace.getWeight 2%Z 8%Z Scenario.basic) /\
  raises EdgeNotFoundError (Replace.getWeight 2%Z 2%Z Scenario.basic) /\
  returns "2 -> 5" (Replace.getWeight 2%Z 5%Z Scenario.basic) /\
  returns "5 -> 2" (Strict.getWeight 5%Z 2%Z Scenario.basic_strict).
Proof.
  split; [|split; [|split; [|split]]].
  - apply (getWeight_spec Scenario.basic 1%Z 2%Z). reflexivity.
  - apply (getWeight_spec Scenario.basic 2%Z 8%Z); reflexivity.
  - apply (getWeight_spec Scenario.basic 2%Z 2%Z); reflexivity.
  - apply (getWeight_spec Scenario.basic 2%Z 5%Z); reflexivity.
  - apply (getWeight_spec Scenario.basic_strict 5%Z 2%Z); reflexivity.
Defined.

(** C1 as stated fails in the copy with [has] checks: with [2] in the
    graph and [8] not, no edge [2 -> 8] exists, and [getWeight(2, 8)]
    raises UnknownVertexError("destination"), not EdgeNotFoundError. *)
Lemma getWeight_absent_destination_counterexample :
  has 2%Z Scenario.basic = true /\
  edge 2%Z 8%Z Scenario.basic = None /\
  raises (UnknownVertexError destination) (Replace.getWeight 2%Z 8%Z Scenario.basic) /\
  ~ raises EdgeNotFoundError (Replace.getWeight 2%Z 8%Z Scenario.basic).
Proof.
  split; [reflexivity|]. split; [reflexivity|]. split.
  - eexists. split; reflexivity.
  - intros [e [He Hp]]. vm_compute in He. injection He as <-. discriminate.
Qed.

(** *** removeEdge *)

Section RemoveEdge.
Context {Vertex Weight : Type} `{EqDec Vertex} `{Truthy Weight}.
Implicit Types (g : DWG Vertex Weight) (v : Vertex) (w : Weight).

Lemma delete_edge_post v1 v2 (edgeMap : JsMap.t Vertex Weight) g :
  JsMap.get v1 (adjList g) = Some edgeMap ->
  without_edge v1 v2 g
    {| adjList := JsMap.set v1 (JsMap.delete v2 edgeMap) (adjList g) |}.
Proof.
  intros Hm. split; [|split].
  - rewrite edge_write. destruct (eq_dec v1 v1); [|congruence]. apply get_delete_eq.
  - intros a b Hab. rewrite edge_write. destruct g as [adj]. simpl in *.
    destruct (eq_dec a v1) as [->|Ha]; auto.
    unfold edge. simpl. rewrite Hm. apply get_delete_ne.
    destruct Hab; congruence.
  - apply same_vertices_of_keys. simpl. apply keys_set_present.
    apply has_true_get. eauto.
Qed.

Lemma delete_no_edge v1 v2 (edgeMap : JsMap.t Vertex Weight) g :
  JsMap.get v1 (adjList g) = Some edgeMap -> edge v1 v2 g = None ->
  {| adjList := JsMap.set v1 (JsMap.delete v2 edgeMap) (adjList g) |} = g.
Proof.
  unfold edge. intros Hm. rewrite Hm. intros He. destruct g as [adj]. simpl in *.
  rewrite delete_absent by now apply has_false_get.
  now rewrite set_same.
Qed.

(** C2, amended.  In the copy whose [removeEdge] returns a boolean, with
    [v1] and [v2] in the graph, [removeEdge(v1, v2)] returns [true] and
    deletes the edge if an edge [v1 -> v2] existed, whatever its weight,
    and returns [false] and leaves the graph as it was if none existed.
    In [src/dwg.ts], [removeEdge] returns the weight: an edge with a
    truthy weight is deleted and its weight returned, and with [v1] in
    the graph and no edge [v1 -> v2] the "Second vertex" error is raised
    and the graph left as it was.  In both, an absent [v1] raises
    UnknownVertexError("origin"), and in the copy with a boolean an
    absent [v2] raises UnknownVertexError("destination"); the graph is
    left as it was. *)
Theorem removeEdge_spec g v1 v2 :
  ((has v1 g = false ->
    raises (UnknownVertexError origin) (Replace.removeEdge v1 v2 g) /\
    snd (Replace.removeEdge v1 v2 g) = g) /\
   (has v1 g = true -> has v2 g = false ->
    raises (UnknownVertexError destination) (Replace.removeEdge v1 v2 g) /\
    snd (Replace.removeEdge v1 v2 g) = g) /\
   (forall w, has v2 g = true -> edge v1 v2 g = Some w ->
    returns true (Replace.removeEdge v1 v2 g) /\
    without_edge v1 v2 g (snd (Replace.removeEdge v1 v2 g))) /\
   (has v1 g = true -> has v2 g = true -> edge v1 v2 g = None ->
    Replace.removeEdge v1 v2 g = (Normal false, g))) /\
  ((has v1 g = false ->
    raises (UnknownVertexError origin) (Strict.removeEdge v1 v2 g) /\
    snd (Strict.removeEdge v1 v2 g) = g) /\
   (has v1 g = true -> edge v1 v2 g = None ->
    raises (UnknownVertexError destination) (Strict.removeEdge v1 v2 g) /\
    snd (Strict.removeEdge v1 v2 g) = g) /\
   (forall w, edge v1 v2 g = Some w -> truthy w = true ->
    returns w (Strict.removeEdge v1 v2 g) /\
    without_edge v1 v2 g (snd (Strict.removeEdge v1 v2 g)))).
Proof.
  split; [split; [|split; [|split]] | split; [|split]].
  - intros H1. rewrite replace_removeEdge_no_origin by assumption.
    split; [eexists; split; reflexivity | reflexivity].
  - intros H1 H2. rewrite replace_removeEdge_no_destination by assumption.
    split; [eexists; split; reflexivity | reflexivity].
  - intros w H2 He.
    assert (H1 : has v1 g = true).
    { unfold edge in He. apply has_true_get.
      destruct (JsMap.get v1 (adjList g)); [eauto|discriminate]. }
    destruct (replace_removeEdge_ok v1 v2 g H1 H2) as (m & Hm & ->).
    split; [|now apply delete_edge_post].
    unfold returns. simpl. f_equal. apply has_true_get.
    unfold edge in He. rewrite Hm in He. eauto.
  - intros H1 H2 He.
    destruct (replace_removeEdge_ok v1 v2 g H1 H2) as (m & Hm & ->).
    rewrite (delete_no_edge v1 v2 g Hm He). f_equal. f_equal.
    apply has_false_get. unfold edge in He. now rewrite Hm in He.
  - intros H1. rewrite strict_removeEdge_no_origin by assumption.
    split; [eexists; split; reflexivity | reflexivity].
  - intros H1 He. rewrite strict_removeEdge_no_weight by assumption.
    split; [eexists; split; reflexivity | reflexivity].
  - intros w He Ht.
    destruct (strict_removeEdge_truthy v1 v2 g He Ht) as (m & Hm & ->).
    split; [reflexivity | now apply delete_edge_post].
Qed.

End RemoveEdge.

(** [removeEdge_spec] on the graph of the test suite: the edge [2 -> 5]
    is removed by both copies, one returning [true] and one the weight,
    and a second removal returns [false] in the copy with a boolean. *)
Lemma removeEdge_spec_witness :
  returns true (Replace.removeEdge 2%Z 5%Z Scenario.basic) /\
  Replace.removeEdge 5%Z 5%Z Scenario.basic = (Normal false, Scenario.basic) /\
  raises (UnknownVertexError origin) (Replace.removeEdge 0%Z 2%Z Scenario.basic) /\
  raises (UnknownVertexError destination) (Replace.removeEdge 2%Z 0%Z Scenario.basic) /\
  returns "2 -> 5" (Strict.removeEdge 2%Z 5%Z Scenario.basic_strict) /\
  raises (UnknownVertexError origin) (Strict.removeEdge 0%Z 2%Z Scenario.basic_strict) /\
  raises (UnknownVertexError destination) (Strict.removeEdge 2%Z 0%Z Scenario.basic_strict).
Proof.
  destruct (removeEdge_spec Scenario.basic 2%Z 5%Z) as [(_ & _ & Hdel & _) _].
  destruct (removeEdge_spec Scenario.basic 5%Z 5%Z) as [(_ & _ & _ & Hnone) _].
  destruct (removeEdge_spec Scenario.basic 0%Z 2%Z) as [(Horig & _) _].
  destruct (removeEdge_spec Scenario.basic 2%Z 0%Z) as [(_ & Hdest & _) _].
  destruct (removeEdge_spec Scenario.basic_strict 2%Z 5%Z) as [_ (_ & _ & Hdel')].
  destruct (removeEdge_spec Scenario.basic_strict 0%Z 2%Z) as [_ (Horig' & _)].
  destruct (removeEdge_spec Scenario.basic_strict 2%Z 0%Z) as [_ (_ & Hdest' & _)].
  split; [apply (Hdel "2 -> 5"); reflexivity|].
  split; [apply Hnone; reflexivity|].
  split; [apply Horig; reflexivity|].
  split; [apply Hdest; reflexivity|].
  split; [apply (Hdel' "2 -> 5"); reflexivity|].
  split; [apply Horig'; reflexivity|].
  apply Hdest'; reflexivity.
Defined.

(** C2 as stated fails in [src/dwg.ts], on the graph of the test suite:
    [removeEdge(2, 5)] removes the edge and returns its weight, not
    [true]; called again, with [2] and [5] still in the graph and no edge
    [2 -> 5], it returns nothing, it throws. *)
Lemma removeEdge_strict_counterexample :
  let g := Scenario.basic_strict in
  let g1 := snd (Strict.removeEdge 2%Z 5%Z g) in
  (has 2%Z g = true /\ has 5%Z g = true /\
   returns "2 -> 5" (Strict.removeEdge 2%Z 5%Z g)) /\
  (has 2%Z g1 = true /\ has 5%Z g1 = true /\ edge 2%Z 5%Z g1 = None /\
   raises (UnknownVertexError destination) (Strict.removeEdge 2%Z 5%Z g1) /\
   ~ exists r, returns r (Strict.removeEdge 2%Z 5%Z g1)).
Proof.
  repeat split.
  - eexists. split; reflexivity.
  - intros [r Hr]. vm_compute in Hr. discriminate.
Qed.

(** *** removeVertex and dangling edges *)

(** C3 fails in [src/dwg.ts].  On the graph with vertices [1] and [2] and
    the one edge [1 -> 2], [removeVertex(2)] returns [true] and leaves
    the inbound edge [1 -> 2] in place, because [2] has no outgoing edge
    to [1]; and [removeVertex(1)] raises a [ReferenceError], because [2]
    has no edge back to [1]. *)
Lemma strict_removeVertex_misses_inbound_edge :
  let g : DWG Z string :=
    Strict.run [Strict.AddVertex 1%Z; Strict.AddVertex 2%Z;
                Strict.AddEdge 1%Z 2%Z "a"] in
  has 1%Z g = true /\ has 2%Z g = true /\
  returns true (Strict.removeVertex 2%Z g) /\
  has 2%Z (snd (Strict.removeVertex 2%Z g)) = false /\
  edge 1%Z 2%Z (snd (Strict.removeVertex 2%Z g)) = Some "a" /\
  raises (UnknownVertexError destination) (Strict.removeVertex 1%Z g) /\
  has 1%Z (snd (Strict.removeVertex 1%Z g)) = true.
Proof.
  repeat split. eexists. split; reflexivity.
Qed.

(** C4 fails in [src/dwg.ts]: after [addVertex(1)], [addVertex(2)],
    [addEdge(1, 2, "a")], [removeVertex(2)], [getEdges(1)] still shows
    the edge to [2], which is no longer a vertex of the graph. *)
Lemma strict_dangling_edge_reachable :
  let g : DWG Z string :=
    Strict.run [Strict.AddVertex 1%Z; Strict.AddVertex 2%Z;
                Strict.AddEdge 1%Z 2%Z "a"; Strict.RemoveVertex 2%Z] in
  Strict.reachable g /\
  getEdges 1%Z g = [(2%Z, "a")] /\
  has 2%Z g = false /\
  ~ no_dangling g.
Proof.
  split; [eexists; reflexivity|]. split; [reflexivity|]. split; [reflexivity|].
  intros Hnd. specialize (Hnd 1%Z 2%Z "a"). vm_compute in Hnd.
  discriminate Hnd. auto.
Qed.

(** *** addEdge *)

Section AddEdge.
Context {Vertex Weight : Type} `{EqDec Vertex} `{Truthy Weight}.
Implicit Types (g : DWG Vertex Weight) (v : Vertex) (w : Weight).

(** C5.  In both copies, [addEdge(v1, v2, w)] raises
    UnknownVertexError("origin") if [v1] is absent and
    UnknownVertexError("destination") if [v1] is present and [v2] is
    absent, and in either case the graph after the call is the graph
    before it, so that [vertexCount] and [edgeCount] are unchanged. *)
Theorem addEdge_unknown_vertex g v1 v2 w :
  (has v1 g = false ->
   (raises (UnknownVertexError origin) (Strict.addEdge v1 v2 w g) /\
    snd (Strict.addEdge v1 v2 w g) = g) /\
   (raises (UnknownVertexError origin) (Replace.addEdge v1 v2 w g) /\
    snd (Replace.addEdge v1 v2 w g) = g)) /\
  (has v1 g = true -> has v2 g = false ->
   (raises (UnknownVertexError destination) (Strict.addEdge v1 v2 w g) /\
    snd (Strict.addEdge v1 v2 w g) = g) /\
   (raises (UnknownVertexError destination) (Replace.addEdge v1 v2 w g) /\
    snd (Replace.addEdge v1 v2 w g) = g)) /\
  ((has v1 g = false \/ has v2 g = false) ->
   vertexCount (snd (Strict.addEdge v1 v2 w g)) = vertexCount g /\
   edgeCount (snd (Strict.addEdge v1 v2 w g)) = edgeCount g /\
   vertexCount (snd (Replace.addEdge v1 v2 w g)) = vertexCount g /\
   edgeCount (snd (Replace.addEdge v1 v2 w g)) = edgeCount g).
Proof.
  assert (Ho : has v1 g = false ->
    Strict.addEdge v1 v2 w g =
      (Throw (ReferenceError "First vertex doesn't exist in the graph"), g) /\
    Replace.addEdge v1 v2 w g =
      (Throw (ReferenceError "First vertex doesn't exist in the graph"), g)).
  { intros H1. now rewrite strict_addEdge_no_origin, replace_addEdge_no_origin. }
  assert (Hd : has v1 g = true -> has v2 g = false ->
    Strict.addEdge v1 v2 w g =
      (Throw (ReferenceError "Second vertex doesn't exist in the graph"), g) /\
    Replace.addEdge v1 v2 w g =
      (Throw (ReferenceError "Second vertex doesn't exist in the graph"), g)).
  { intros H1 H2.
    now rewrite strict_addEdge_no_destination, replace_addEdge_no_destination. }
  split; [|split].
  - intros H1. destruct (Ho H1) as [-> ->].
    split; (split; [eexists; split; reflexivity | reflexivity]).
  - intros H1 H2. destruct (Hd H1 H2) as [-> ->].
    split; (split; [eexists; split; reflexivity | reflexivity]).
  - intros Habs. destruct (has v1 g) eqn:H1.
    + destruct Habs as [Habs|H2]; [discriminate|].
      destruct (Hd eq_refl H2) as [-> ->]. auto.
    + destruct (Ho eq_refl) as [-> ->]. auto.
Qed.

(** C9.  In both copies, on a graph with [v2] present and an edge
    [v1 -> v2] stored, [addEdge(v1, v2, w)] returns the graph, in which
    [edgeCount] and the number of edges out of [v1] are what they were
    and the entries of [getEdges(v1)] for [v2] are the one pair
    [(v2, w)]. *)
Theorem addEdge_overwrites g v1 v2 w w0 :
  wf g -> has v2 g = true -> edge v1 v2 g = Some w0 ->
  exists g',
    Strict.addEdge v1 v2 w g = (Normal g', g') /\
    Replace.addEdge v1 v2 w g = (Normal g', g') /\
    edgeCount g' = edgeCount g /\
    List.length (getEdges v1 g') = List.length (getEdges v1 g) /\
    filter (fun e => if eq_dec v2 (fst e) then true else false) (getEdges v1 g')
    = [(v2, w)] /\
    edge v1 v2 g' = Some w.
Proof.
  intros Hwf H2 He.
  assert (H1 : has v1 g = true).
  { unfold edge in He. apply has_true_get.
    destruct (JsMap.get v1 (adjList g)); [eauto|discriminate]. }
  destruct (strict_addEdge_ok v1 v2 w g H1 H2) as (m & Hm & Hs).
  destruct (replace_addEdge_ok v1 v2 w g H1 H2) as (m' & Hm' & Hr).
  assert (m' = m) by congruence. subst m'.
  eexists. split; [exact Hs|]. split; [exact Hr|].
  assert (Hsize : JsMap.size (JsMap.set v2 w m) = JsMap.size m).
  { apply size_set_present. apply has_true_get.
    unfold edge in He. rewrite Hm in He. eauto. }
  destruct g as [adj]. simpl in *. repeat split.
  - now apply edgeCount_write with (y := m).
  - rewrite !getEdges_length. simpl. rewrite get_set_eq, Hm. exact Hsize.
  - rewrite getEdges_write. destruct (eq_dec v1 v1); [|congruence].
    apply entries_for_set. eapply wf_inner; eauto.
  - rewrite edge_write. destruct (eq_dec v1 v1); [|congruence]. apply get_set_eq.
Qed.

End AddEdge.

(** [addEdge_unknown_vertex] on the graph of the test suite, with the
    calls the test suite makes. *)
Lemma addEdge_unknown_vertex_witness :
  raises (UnknownVertexError origin) (Replace.addEdge 1%Z 2%Z "foo" Scenario.basic) /\
  snd (Strict.addEdge 1%Z 2%Z "foo" Scenario.basic) = Scenario.basic /\
  raises (UnknownVertexError destination) (Replace.addEdge 2%Z 3%Z "bar" Scenario.basic) /\
  snd (Strict.addEdge 2%Z 3%Z "bar" Scenario.basic) = Scenario.basic /\
  edgeCount (snd (Replace.addEdge 2%Z 3%Z "bar" Scenario.basic)) = 2.
Proof.
  destruct (addEdge_unknown_vertex Scenario.basic 1%Z 2%Z "foo") as (Ho & _ & _).
  destruct (addEdge_unknown_vertex Scenario.basic 2%Z 3%Z "bar") as (_ & Hd & Hc).
  destruct (Ho eq_refl) as [[_ Hs] [Hr _]].
  destruct (Hd eq_refl eq_refl) as [[_ Hs'] [Hr' _]].
  destruct (Hc (or_intror eq_refl)) as (_ & _ & _ & He).
  repeat split; assumption.
Defined.

(** [addEdge_overwrites] on the "Overwriting edges" scenario of the test
    suite. *)
Lemma addEdge_overwrites_witness :
  exists g',
    Strict.addEdge 1%Z 2%Z "bar" (Scenario.one_edge "foo") = (Normal g', g') /\
    Replace.addEdge 1%Z 2%Z "bar" (Scenario.one_edge "foo") = (Normal g', g') /\
    edgeCount g' = 1 /\
    getEdges 1%Z g' = [(2%Z, "bar")].
Proof.
  assert (Hwf : wf (Scenario.one_edge "foo")).
  { split; simpl.
    - repeat constructor; simpl; intuition discriminate.
    - intros v m [[= <- <-]|[[= <- <-]|[]]]; repeat constructor; simpl; tauto. }
  assert (H2 : has 2%Z (Scenario.one_edge "foo") = true) by reflexivity.
  assert (He : edge 1%Z 2%Z (Scenario.one_edge "foo") = Some "foo") by reflexivity.
  destruct (@addEdge_overwrites _ _ _ (Scenario.one_edge "foo") 1%Z 2%Z "bar" "foo"
              Hwf H2 He)
    as (g' & Hs & Hr & Hc & _ & _ & _).
  exists g'. split; [exact Hs|]. split; [exact Hr|].
  split; [rewrite Hc; reflexivity|]. vm_compute in Hs. injection Hs as <-. reflexivity.
Defined.

(** *** edgeCount *)

Section EdgeCount.
Context {Vertex Weight : Type} `{EqDec Vertex} `{Truthy Weight}.
Implicit Types (g : DWG Vertex Weight).

(** C6.  In a graph reached by any sequence of calls on a new graph, in
    either copy, [edgeCount] is the sum of [getEdges(v).length] over the
    vertices [v] of the graph. *)
Theorem edgeCount_sum_getEdges g :
  Strict.reachable g \/ Replace.reachable g ->
  edgeCount g =
  list_sum (map (fun v => List.length (getEdges v g)) (getAllVertices g)).
Proof.
  intros Hreach. apply edgeCount_getEdges.
  destruct Hreach as [Hs|Hr].
  - now apply strict_reachable_wf in Hs as [Ho _].
  - now apply replace_reachable_wf in Hr as [Ho _].
Qed.

End EdgeCount.

(** [edgeCount_sum_getEdges] on the graph of the test suite. *)
Lemma edgeCount_sum_getEdges_witness :
  edgeCount Scenario.basic =
  List.length (getEdges 2%Z Scenario.basic) + (List.length (getEdges 5%Z Scenario.basic) + 0).
Proof.
  apply (edgeCount_sum_getEdges (g := Scenario.basic)).
  right. eexists. reflexivity.
Defined.

(** *** addVertex *)

Section AddVertex.
Context {Vertex Weight : Type} `{EqDec Vertex}.
Implicit Types (g : DWG Vertex Weight) (v : Vertex).

(** C7.  In [src/dwg.ts], [addVertex(v)] with [v] in the graph raises
    DuplicateVertexError and leaves the graph as it was; with [v] not in
    the graph it returns the graph, in which [v] is the newest vertex,
    [getEdges(v)] is empty and every edge is as before. *)
Theorem strict_addVertex_spec g v :
  (has v g = true ->
   raises DuplicateVertexError (Strict.addVertex v g) /\
   snd (Strict.addVertex v g) = g) /\
  (has v g = false ->
   exists g',
     Strict.addVertex v g = (Normal g', g') /\
     has v g' = true /\
     getEdges v g' = [] /\
     getAllVertices g' = getAllVertices g ++ [v] /\
     (forall a b, edge a b g' = edge a b g)).
Proof.
  split.
  - intros Hv. rewrite strict_addVertex_present by assumption.
    split; [eexists; split; reflexivity | reflexivity].
  - intros Hv. eexists. split; [now apply strict_addVertex_absent|].
    destruct g as [adj]. unfold has in *. simpl in *. repeat split.
    + apply has_set_eq.
    + rewrite getEdges_write. destruct (eq_dec v v); [reflexivity|congruence].
    + unfold getAllVertices. simpl. now apply keys_set_absent.
    + intros a b. rewrite edge_write. destruct (eq_dec a v) as [->|Ha]; auto.
      unfold edge. simpl. apply has_false_get in Hv. now rewrite Hv.
Qed.

(** C8.  In the copy that replaces, [addVertex(v)] with [v] in the graph
    leaves the graph that [removeVertex(v)] leaves, with [v] added to it
    with an empty edge map: [has(v)] holds, [getEdges(v)] is empty, no
    edge starts or ends at [v], and the edges between other vertices are
    as before. *)
Theorem replace_addVertex_present g v :
  has v g = true ->
  exists g1 g',
    Replace.removeVertex v g = (Normal true, g1) /\
    has v g1 = false /\
    Replace.addVertex v g = (Normal g', g') /\
    g' = {| adjList := JsMap.set v JsMap.empty (adjList g1) |} /\
    has v g' = true /\
    getEdges v g' = [] /\
    (forall u, edge u v g' = None /\ edge v u g' = None) /\
    (forall u w, ~ In (v, w) (getEdges u g')) /\
    (forall a b, a <> v -> b <> v -> edge a b g' = edge a b g).
Proof.
  intros Hv.
  destruct (replace_removeVertex_spec v g Hv)
    as (g1 & Hrm & Hgone & Hnone & _ & _ & Hkeep).
  exists g1. eexists. split; [exact Hrm|]. split; [exact Hgone|].
  rewrite removeVertex_present in Hrm by assumption. injection Hrm as <-.
  split; [rewrite replace_addVertex_eq, Hv; reflexivity|]. simpl.
  split; [reflexivity|].
  assert (Hedges : forall u,
            edge u v {| adjList := JsMap.set v JsMap.empty
                          (JsMap.delete v (map (Replace.strip v) (adjList g))) |} = None /\
            edge v u {| adjList := JsMap.set v JsMap.empty
                          (JsMap.delete v (map (Replace.strip v) (adjList g))) |} = None).
  { intros u. rewrite !edge_write. destruct (eq_dec v v); [|congruence].
    split; [|reflexivity]. destruct (eq_dec u v); [reflexivity|]. apply Hnone. }
  repeat split.
  - unfold has. simpl. apply has_set_eq.
  - rewrite getEdges_write. destruct (eq_dec v v); [reflexivity|congruence].
  - apply Hedges.
  - apply Hedges.
  - intros u w Hin. apply getEdges_edge in Hin as [w' Hw'].
    destruct (Hedges u) as [Hn _]. congruence.
  - intros a b Ha Hb. rewrite edge_write.
    destruct (eq_dec a v); [congruence|]. now apply Hkeep.
Qed.

End AddVertex.

(** [strict_addVertex_spec] on the graph of the test suite: [2] is
    rejected, [3] is added. *)
Lemma strict_addVertex_spec_witness :
  raises DuplicateVertexError (Strict.addVertex 2%Z Scenario.basic_strict) /\
  exists g', Strict.addVertex 3%Z Scenario.basic_strict = (Normal g', g') /\
             getAllVertices g' = [2%Z; 5%Z; 3%Z] /\ getEdges 3%Z g' = [].
Proof.
  destruct (strict_addVertex_spec Scenario.basic_strict 2%Z) as [Hdup _].
  destruct (strict_addVertex_spec Scenario.basic_strict 3%Z) as [_ Hnew].
  split; [apply Hdup; reflexivity|].
  destruct (Hnew eq_refl) as (g' & Hadd & _ & Hedges & Hall & _).
  exists g'. repeat split; assumption.
Defined.

(** [replace_addVertex_present] on the "Overwriting vertices" scenario of
    the test suite: adding [2] again clears the edge [1 -> 2]. *)
Lemma replace_addVertex_present_witness :
  exists g', Replace.addVertex 2%Z (Scenario.one_edge "bar") = (Normal g', g') /\
             has 2%Z g' = true /\ getEdges 2%Z g' = [] /\ edge 1%Z 2%Z g' = None.
Proof.
  assert (Hv : has 2%Z (Scenario.one_edge "bar") = true) by reflexivity.
  destruct (replace_addVertex_present (Scenario.one_edge "bar") 2%Z Hv)
    as (g1 & g' & _ & _ & Hadd & _ & Hhas & Hedges & Hnone & _).
  exists g'. repeat split; try assumption. apply Hnone.
Defined.

(** *** The vertex set under edge operations *)

Section Frame.
Context {Vertex Weight : Type} `{EqDec Vertex} `{Truthy Weight}.
Implicit Types (g : DWG Vertex Weight) (v : Vertex) (w : Weight).

(** C10.  In both copies, [addEdge], [removeEdge] and [getWeight] leave
    the vertex set as it was, whether they return or throw:
    [getAllVertices], [vertexCount] and [has] observe the same after the
    call as before it. *)
Theorem edge_calls_keep_vertices g v1 v2 w :
  same_vertices g (snd (Strict.addEdge v1 v2 w g)) /\
  same_vertices g (snd (Strict.removeEdge v1 v2 g)) /\
  same_vertices g (snd (Strict.getWeight v1 v2 g)) /\
  same_vertices g (snd (Replace.addEdge v1 v2 w g)) /\
  same_vertices g (snd (Replace.removeEdge v1 v2 g)) /\
  same_vertices g (snd (Replace.getWeight v1 v2 g)).
Proof.
  assert (Hwrite : forall x m, JsMap.get v1 (adjList g) = Some m ->
            same_vertices g {| adjList := JsMap.set v1 x (adjList g) |}).
  { intros x m Hm. apply same_vertices_of_keys. simpl.
    apply keys_set_present, has_true_get. eauto. }
  split; [|split; [|split; [|split; [|split]]]].
  - destruct (has v1 g) eqn:H1;
      [|rewrite strict_addEdge_no_origin by assumption; apply same_vertices_refl].
    destruct (has v2 g) eqn:H2;
      [|rewrite strict_addEdge_no_destination by assumption; apply same_vertices_refl].
    destruct (strict_addEdge_ok v1 v2 w g H1 H2) as (m & Hm & ->). simpl. eapply Hwrite; eassumption.
  - apply same_vertices_of_keys, strict_removeEdge_keys.
  - rewrite strict_getWeight_state. apply same_vertices_refl.
  - destruct (has v1 g) eqn:H1;
      [|rewrite replace_addEdge_no_origin by assumption; apply same_vertices_refl].
    destruct (has v2 g) eqn:H2;
      [|rewrite replace_addEdge_no_destination by assumption; apply same_vertices_refl].
    destruct (replace_addEdge_ok v1 v2 w g H1 H2) as (m & Hm & ->). simpl. eapply Hwrite; eassumption.
  - destruct (has v1 g) eqn:H1;
      [|rewrite replace_removeEdge_no_origin by assumption; apply same_vertices_refl].
    destruct (has v2 g) eqn:H2;
      [|rewrite replace_removeEdge_no_destination by assumption; apply same_vertices_refl].
    destruct (replace_removeEdge_ok v1 v2 g H1 H2) as (m & Hm & ->). simpl. eapply Hwrite; eassumption.
  - rewrite replace_getWeight_state. apply same_vertices_refl.
Qed.

End Frame.

(** ** Further facts about maps and writes *)

Section MoreMapFacts.
Context {K V : Type} `{EqDec K}.
Implicit Types (k : K) (v : V) (m : JsMap.t K V).

(** A new key goes to the end. *)
Lemma set_absent k v m : JsMap.get k m = None -> JsMap.set k v m = m ++ [(k, v)].
Proof.
  induction m as [|[k' v'] m IH]; simpl; auto.
  destruct (eq_dec k k'); [discriminate|]. intros Hg. now rewrite IH.
Qed.

Lemma set_set k v v' m : JsMap.set k v (JsMap.set k v' m) = JsMap.set k v m.
Proof.
  induction m as [|[k0 v0] m IH]; simpl.
  - destruct (eq_dec k k); congruence.
  - destruct (eq_dec k k0) as [E|E]; simpl.
    + destruct (eq_dec k k0); congruence.
    + destruct (eq_dec k k0); congruence.
Qed.

Lemma delete_set_absent k v m :
  JsMap.get k m = None -> JsMap.delete k (JsMap.set k v m) = m.
Proof.
  intros Hg. rewrite set_absent by assumption. unfold JsMap.delete.
  rewrite filter_app. simpl. destruct (eq_dec k k); [|congruence].
  rewrite app_nil_r. apply (delete_absent k m). now apply has_false_get.
Qed.

Lemma filter_other_keys k (ks : list K) :
  ~ In k ks -> filter (fun k' => if eq_dec k k' then false else true) ks = ks.
Proof.
  induction ks as [|k0 ks IH]; simpl; auto.
  intros Hn. destruct (eq_dec k k0); [exfalso; apply Hn; left; congruence|].
  rewrite IH; tauto.
Qed.

End MoreMapFacts.

Section MoreWriteFacts.
Context {Vertex Weight : Type} `{EqDec Vertex}.
Implicit Types (g : DWG Vertex Weight) (v : Vertex) (w : Weight)
               (adj : JsMap.t Vertex (JsMap.t Vertex Weight)).

(** Rewriting the edge map of a vertex changes [edgeCount] by the change
    in size of that map. *)
Lemma edgeCount_rewrite v1 (x y : JsMap.t Vertex Weight) adj :
  JsMap.get v1 adj = Some y ->
  edgeCount {| adjList := JsMap.set v1 x adj |} + JsMap.size y =
  edgeCount {| adjList := adj |} + JsMap.size x.
Proof.
  rewrite !edgeCount_sum. simpl.
  induction adj as [|[k m] adj IH]; simpl; [discriminate|].
  destruct (eq_dec v1 k) as [E|E]; simpl.
  - intros [= ->]. lia.
  - intros Hg. specialize (IH Hg). lia.
Qed.

(** An edge map with nothing in it adds nothing to [edgeCount]. *)
Lemma edgeCount_new_vertex v adj :
  JsMap.get v adj = None ->
  edgeCount {| adjList := JsMap.set v JsMap.empty adj |} = edgeCount {| adjList := adj |}.
Proof.
  intros Hg. rewrite !edgeCount_sum. simpl. rewrite set_absent by assumption.
  unfold JsMap.values. rewrite !map_app, list_sum_app. simpl. lia.
Qed.

Lemma find_push (filterFn : Vertex -> bool) (xs acc : list Vertex) :
  fold_left (fun result vertex => if filterFn vertex then result ++ [vertex] else result)
            xs acc
  = acc ++ filter filterFn xs.
Proof.
  revert acc. induction xs as [|x xs IH]; intros acc; simpl.
  - now rewrite app_nil_r.
  - rewrite IH. destruct (filterFn x); simpl; auto. now rewrite <- app_assoc.
Qed.

(** The outcomes of [getWeight] in the copy with [has] checks. *)
Lemma replace_getWeight_cases v1 v2 g :
  Replace.getWeight v1 v2 g =
  if negb (has v1 g)
  then (Throw (ReferenceError "First vertex doesn't exist in the graph"), g)
  else if negb (has v2 g)
  then (Throw (ReferenceError "Second vertex doesn't exist in the graph"), g)
  else match edge v1 v2 g with
       | None => (Throw (ReferenceError "No such edge exists in the graph"), g)
       | Some weight => (Normal weight, g)
       end.
Proof.
  unfold Replace.getWeight, has, edge. run_method.
  destruct (JsMap.has v1 (adjList g)) eqn:H1; simpl; auto.
  destruct (JsMap.has v2 (adjList g)); simpl; auto.
  apply has_true_get in H1 as [m Hm]. rewrite Hm.
  destruct (JsMap.get v2 m); reflexivity.
Qed.

End MoreWriteFacts.

(** ** Further properties of the accessors and of the edge methods *)

Section Accessors.
Context {Vertex Weight : Type} `{EqDec Vertex}.
Implicit Types (g : DWG Vertex Weight) (v : Vertex) (w : Weight).

(** X1.  [find(filterFn)] is the list of vertices, in the order of
    [getAllVertices], that pass [filterFn]: a value is in it exactly when
    it is a vertex of the graph and passes. *)
Theorem find_filter (filterFn : Vertex -> bool) g :
  find filterFn g = filter filterFn (getAllVertices g) /\
  forall v, In v (find filterFn g) <-> has v g = true /\ filterFn v = true.
Proof.
  assert (Hf : find filterFn g = filter filterFn (getAllVertices g)).
  { unfold find, getAllVertices. now rewrite find_push. }
  split; [exact Hf|]. intros v. rewrite Hf, filter_In.
  unfold has, getAllVertices. now rewrite has_true_keys.
Qed.

(** X2.  [getEdges] and [getWeight] agree: with each key held once and
    [v2] in the graph, the pair [(v2, w)] is among [getEdges(v1)] exactly
    when [getWeight(v1, v2)] returns [w].  For a [v1] that is not in the
    graph [getEdges(v1)] is empty. *)
Theorem getEdges_getWeight g v1 v2 w :
  (has v1 g = false -> getEdges v1 g = []) /\
  (wf g -> has v2 g = true ->
   (In (v2, w) (getEdges v1 g) <-> returns w (Replace.getWeight v1 v2 g))).
Proof.
  split.
  - intros H1. rewrite getEdges_entries. apply has_false_get in H1.
    unfold has in H1. now rewrite H1.
  - intros Hwf H2. unfold returns. rewrite replace_getWeight_cases, H2.
    rewrite getEdges_entries. unfold has, edge, JsMap.has.
    destruct (JsMap.get v1 (adjList g)) as [m|] eqn:Hm; simpl.
    + assert (Hm' : JsMap.wf m) by (eapply wf_inner; eauto). split.
      * intros Hin. now rewrite (In_get v2 w Hm' Hin).
      * destruct (JsMap.get v2 m) as [w'|] eqn:Hw; [|discriminate].
        intros [= ->]. now apply get_In.
    + split; [intros [] | discriminate].
Qed.

End Accessors.

(** [getEdges_getWeight] on the graph of the test suite. *)
Lemma getEdges_getWeight_witness :
  getEdges 1%Z Scenario.basic = [] /\
  (In (5%Z, "2 -> 5") (getEdges 2%Z Scenario.basic) <->
   returns "2 -> 5" (Replace.getWeight 2%Z 5%Z Scenario.basic)).
Proof.
  destruct (getEdges_getWeight Scenario.basic 2%Z 5%Z "2 -> 5") as [_ Hiff].
  destruct (getEdges_getWeight Scenario.basic 1%Z 5%Z "2 -> 5") as [Hnil _].
  split; [apply Hnil; reflexivity|]. apply Hiff; [|reflexivity].
  split; simpl.
  - repeat constructor; simpl; intuition discriminate.
  - intros v m [[= <- <-]|[[= <- <-]|[]]]; repeat constructor; simpl; tauto.
Defined.

Section EdgeMethods.
Context {Vertex Weight : Type} `{EqDec Vertex} `{Truthy Weight}.
Implicit Types (g : DWG Vertex Weight) (v : Vertex) (w : Weight).

Lemma addEdge_same g v1 v2 w :
  Strict.addEdge v1 v2 w g = Replace.addEdge v1 v2 w g.
Proof.
  destruct (has v1 g) eqn:H1.
  - destruct (has v2 g) eqn:H2.
    + destruct (strict_addEdge_ok v1 v2 w g H1 H2) as (m & Hm & ->).
      destruct (replace_addEdge_ok v1 v2 w g H1 H2) as (m' & Hm' & ->).
      congruence.
    + now rewrite strict_addEdge_no_destination, replace_addEdge_no_destination.
  - now rewrite strict_addEdge_no_origin, replace_addEdge_no_origin.
Qed.

(** X5.  The two copies of [addEdge] are different texts of one method:
    on every graph and for all arguments they end the same way and leave
    the same graph. *)
Theorem addEdge_copies_agree g v1 v2 w :
  Strict.addEdge v1 v2 w g = Replace.addEdge v1 v2 w g.
Proof. apply addEdge_same. Qed.

(** X3.  What [addEdge] stores, [getWeight] reads back.  With [v1] and
    [v2] in the graph, after [addEdge(v1, v2, w)] the call
    [getWeight(v1, v2)] returns [w] in the copy with [has] checks,
    whatever [w] is; in [src/dwg.ts] it returns [w] if [w] is truthy and
    throws if it is not.  Every other edge is as before. *)
Theorem addEdge_then_getWeight g v1 v2 w :
  has v1 g = true -> has v2 g = true ->
  returns w (Replace.getWeight v1 v2 (snd (Replace.addEdge v1 v2 w g))) /\
  (truthy w = true ->
   returns w (Strict.getWeight v1 v2 (snd (Strict.addEdge v1 v2 w g)))) /\
  (truthy w = false ->
   raises (UnknownVertexError destination)
          (Strict.getWeight v1 v2 (snd (Strict.addEdge v1 v2 w g)))) /\
  (forall a b, a <> v1 \/ b <> v2 ->
   edge a b (snd (Replace.addEdge v1 v2 w g)) = edge a b g).
Proof.
  intros H1 H2. rewrite addEdge_same.
  destruct (replace_addEdge_ok v1 v2 w g H1 H2) as (m & Hm & ->). simpl.
  assert (He : forall a b,
            edge a b {| adjList := JsMap.set v1 (JsMap.set v2 w m) (adjList g) |} =
            if eq_dec a v1 then if eq_dec b v2 then Some w else edge a b g
            else edge a b g).
  { intros a b. rewrite edge_write. destruct g as [adj]. simpl in *.
    destruct (eq_dec a v1) as [->|Ha]; auto.
    rewrite get_set_cases. unfold edge. simpl. now rewrite Hm. }
  assert (He12 := He v1 v2).
  destruct (eq_dec v1 v1); [|congruence]. destruct (eq_dec v2 v2); [|congruence].
  split; [|split; [|split]].
  - unfold returns. rewrite replace_getWeight_cases, He12.
    rewrite !has_write by assumption. now rewrite H1, H2.
  - intros Ht. unfold returns, Strict.getWeight. run_method.
    rewrite get_set_eq, get_set_eq, Ht. reflexivity.
  - intros Ht. eexists. unfold Strict.getWeight. run_method.
    rewrite get_set_eq, get_set_eq, Ht. simpl. split; reflexivity.
  - intros a b Hab. rewrite He. destruct (eq_dec a v1); auto.
    destruct (eq_dec b v2); auto. subst. destruct Hab; congruence.
Qed.

(** X4.  A new edge is one more edge, enumerated last.  With [v1] and
    [v2] in the graph and no edge [v1 -> v2], after [addEdge(v1, v2, w)]
    [edgeCount] is one more, [getEdges(v1)] is what it was followed by
    [(v2, w)], and [getEdges] of every other vertex is as before. *)
Theorem addEdge_new_edge g v1 v2 w :
  has v1 g = true -> has v2 g = true -> edge v1 v2 g = None ->
  let g' := snd (Replace.addEdge v1 v2 w g) in
  edgeCount g' = S (edgeCount g) /\
  getEdges v1 g' = getEdges v1 g ++ [(v2, w)] /\
  (forall u, u <> v1 -> getEdges u g' = getEdges u g).
Proof.
  intros H1 H2 He.
  destruct (replace_addEdge_ok v1 v2 w g H1 H2) as (m & Hm & ->). simpl.
  unfold edge in He. rewrite Hm in He.
  destruct g as [adj]. simpl in *. split; [|split].
  - pose proof (edgeCount_rewrite v1 (JsMap.set v2 w m) adj Hm) as Hc.
    rewrite (set_absent v2 w m He) in Hc at 2. unfold JsMap.size in Hc.
    rewrite length_app in Hc. simpl in Hc. fold (JsMap.size m) in Hc. lia.
  - rewrite getEdges_write. destruct (eq_dec v1 v1); [|congruence].
    rewrite getEdges_entries. simpl. rewrite Hm. now apply set_absent.
  - intros u Hu. rewrite getEdges_write. destruct (eq_dec u v1); congruence.
Qed.

(** X6.  Removing an edge that was just added gives back the graph.  With
    [v1] and [v2] in the graph and no edge [v1 -> v2], [addEdge(v1, v2, w)]
    followed by [removeEdge(v1, v2)] returns [true] and leaves the graph
    exactly as it was before the two calls. *)
Theorem removeEdge_after_addEdge g v1 v2 w :
  has v1 g = true -> has v2 g = true -> edge v1 v2 g = None ->
  Replace.removeEdge v1 v2 (snd (Replace.addEdge v1 v2 w g)) = (Normal true, g).
Proof.
  intros H1 H2 He.
  destruct (replace_addEdge_ok v1 v2 w g H1 H2) as (m & Hm & ->). simpl.
  unfold edge in He. rewrite Hm in He.
  set (g' := {| adjList := JsMap.set v1 (JsMap.set v2 w m) (adjList g) |}).
  assert (H1' : has v1 g' = true) by (unfold g'; now rewrite has_write).
  assert (H2' : has v2 g' = true) by (unfold g'; now rewrite has_write).
  destruct (replace_removeEdge_ok v1 v2 g' H1' H2') as (m' & Hm' & ->).
  unfold g' in Hm'. simpl in Hm'. rewrite get_set_eq in Hm'. injection Hm' as <-.
  rewrite has_set_eq. f_equal. unfold g'. simpl.
  rewrite delete_set_absent by assumption. rewrite set_set.
  destruct g as [adj]. simpl in *. now rewrite set_same.
Qed.

(** X7.  Removing an edge is one edge less, once.  With each key held
    once, [v2] in the graph and an edge [v1 -> v2] stored,
    [removeEdge(v1, v2)] of the copy with a boolean takes [edgeCount] down
    by one, and the same call made again returns [false] and changes
    nothing. *)
Theorem removeEdge_counts g v1 v2 w :
  wf g -> has v2 g = true -> edge v1 v2 g = Some w ->
  let g' := snd (Replace.removeEdge v1 v2 g) in
  S (edgeCount g') = edgeCount g /\
  Replace.removeEdge v1 v2 g' = (Normal false, g').
Proof.
  intros Hwf H2 He.
  assert (H1 : has v1 g = true).
  { unfold edge in He. apply has_true_get.
    destruct (JsMap.get v1 (adjList g)); [eauto|discriminate]. }
  destruct (replace_removeEdge_ok v1 v2 g H1 H2) as (m & Hm & ->). simpl.
  unfold edge in He. rewrite Hm in He.
  set (g' := {| adjList := JsMap.set v1 (JsMap.delete v2 m) (adjList g) |}).
  split.
  - assert (Hs : S (JsMap.size (JsMap.delete v2 m)) = JsMap.size m).
    { apply size_delete_present; [eapply wf_inner; eauto|].
      apply has_true_get. eauto. }
    pose proof (edgeCount_rewrite v1 (JsMap.delete v2 m) (adjList g) Hm) as Hc.
    fold g' in Hc. destruct g as [adj]. simpl in *. lia.
  - assert (H1' : has v1 g' = true) by (unfold g'; now rewrite has_write).
    assert (H2' : has v2 g' = true) by (unfold g'; now rewrite has_write).
    destruct (replace_removeEdge_ok v1 v2 g' H1' H2') as (m' & Hm' & ->).
    assert (Hm'' := Hm'). unfold g' in Hm''. simpl in Hm''.
    rewrite get_set_eq in Hm''. injection Hm'' as <-.
    rewrite has_delete_eq. f_equal.
    apply (delete_no_edge v1 v2 g' Hm'). unfold edge. rewrite Hm'.
    apply get_delete_eq.
Qed.

End EdgeMethods.

Lemma basic_wf : wf Scenario.basic.
Proof. apply replace_reachable_wf. eexists. reflexivity. Qed.

(** [addEdge_then_getWeight] on the graph of the test suite, with a
    truthy and with an empty weight. *)
Lemma addEdge_then_getWeight_witness :
  returns "" (Replace.getWeight 2%Z 5%Z (snd (Replace.addEdge 2%Z 5%Z "" Scenario.basic))) /\
  returns "w" (Strict.getWeight 5%Z 5%Z (snd (Strict.addEdge 5%Z 5%Z "w" Scenario.basic))) /\
  raises (UnknownVertexError destination)
         (Strict.getWeight 2%Z 5%Z (snd (Strict.addEdge 2%Z 5%Z "" Scenario.basic))).
Proof.
  destruct (@addEdge_then_getWeight Z string Z_EqDec string_Truthy Scenario.basic 2%Z 5%Z "" eq_refl eq_refl)
    as (Hr & _ & Hf & _).
  destruct (@addEdge_then_getWeight Z string Z_EqDec string_Truthy Scenario.basic 5%Z 5%Z "w" eq_refl eq_refl)
    as (_ & Ht & _ & _).
  split; [exact Hr|]. split; [apply Ht; reflexivity | apply Hf; reflexivity].
Defined.

(** [addEdge_new_edge] on the graph of the test suite: a loop at [2]. *)
Lemma addEdge_new_edge_witness :
  edgeCount (snd (Replace.addEdge 2%Z 2%Z "loop" Scenario.basic)) = 3 /\
  getEdges 2%Z (snd (Replace.addEdge 2%Z 2%Z "loop" Scenario.basic))
  = [(5%Z, "2 -> 5"); (2%Z, "loop")].
Proof.
  destruct (@addEdge_new_edge Z string Z_EqDec Scenario.basic 2%Z 2%Z "loop" eq_refl eq_refl eq_refl)
    as (Hc & He & _).
  split; [exact Hc | exact He].
Defined.

(** [removeEdge_after_addEdge] on the graph of the test suite. *)
Lemma removeEdge_after_addEdge_witness :
  Replace.removeEdge 2%Z 2%Z (snd (Replace.addEdge 2%Z 2%Z "loop" Scenario.basic))
  = (Normal true, Scenario.basic).
Proof.
  apply (@removeEdge_after_addEdge Z string Z_EqDec Scenario.basic 2%Z 2%Z "loop"); reflexivity.
Defined.

(** [removeEdge_counts] on the graph of the test suite. *)
Lemma removeEdge_counts_witness :
  S (edgeCount (snd (Replace.removeEdge 2%Z 5%Z Scenario.basic))) = 2 /\
  returns false (Replace.removeEdge 2%Z 5%Z (snd (Replace.removeEdge 2%Z 5%Z Scenario.basic))).
Proof.
  destruct (@removeEdge_counts Z string Z_EqDec Scenario.basic 2%Z 5%Z "2 -> 5" basic_wf eq_refl eq_refl)
    as (Hc & Hr).
  split; [exact Hc|]. unfold returns. now rewrite Hr.
Defined.

(** ** Further properties of the vertex methods *)

Section VertexMethods.
Context {Vertex Weight : Type} `{EqDec Vertex}.
Implicit Types (g : DWG Vertex Weight) (v : Vertex) (w : Weight).

Lemma keys_removed v g :
  JsMap.keys (JsMap.delete v (map (Replace.strip v) (adjList g))) =
  filter (fun k' => if eq_dec v k' then false else true) (getAllVertices g).
Proof.
  rewrite keys_delete. now rewrite (keys_map (Replace.strip v) (strip_key v)).
Qed.

(** X8.  A vertex that is not in the graph is added the same way by both
    copies of [addVertex]: the call returns the graph, with one vertex
    more, enumerated last, with no outgoing edge, and with every edge and
    [edgeCount] as before. *)
Theorem addVertex_new_vertex g v :
  has v g = false ->
  exists g',
    Replace.addVertex v g = (Normal g', g') /\
    Strict.addVertex v g = (Normal g', g') /\
    getAllVertices g' = getAllVertices g ++ [v] /\
    vertexCount g' = S (vertexCount g) /\
    getEdges v g' = [] /\
    (forall a b, edge a b g' = edge a b g) /\
    edgeCount g' = edgeCount g.
Proof.
  intros Hv. eexists. split; [rewrite replace_addVertex_eq, Hv; reflexivity|].
  split; [apply (strict_addVertex_absent v g Hv)|].
  assert (Hg : JsMap.get v (adjList g) = None) by now apply has_false_get.
  destruct g as [adj]. simpl in *. split; [|split; [|split; [|split]]].
  - unfold getAllVertices. simpl. now apply keys_set_absent.
  - unfold vertexCount, JsMap.size. simpl. rewrite set_absent by assumption.
    rewrite length_app. simpl. lia.
  - rewrite getEdges_write. destruct (eq_dec v v); [reflexivity|congruence].
  - intros a b. rewrite edge_write. destruct (eq_dec a v) as [->|Ha]; auto.
    unfold edge. simpl. now rewrite Hg.
  - now apply edgeCount_new_vertex.
Qed.

(** X9.  After [addVertex(v)] the vertex is in the graph, in both copies
    and however the call ends.  The copy that replaces never throws, and
    it enumerates [v] last: [getAllVertices] is the old list without [v],
    followed by [v]. *)
Theorem addVertex_then_has g v :
  has v (snd (Strict.addVertex v g)) = true /\
  exists g',
    Replace.addVertex v g = (Normal g', g') /\
    has v g' = true /\
    getAllVertices g' =
    filter (fun k' => if eq_dec v k' then false else true) (getAllVertices g) ++ [v].
Proof.
  split.
  - destruct (has v g) eqn:Hv.
    + now rewrite strict_addVertex_present.
    + rewrite strict_addVertex_absent by assumption. unfold has. simpl.
      apply has_set_eq.
  - eexists. split; [apply replace_addVertex_eq|]. simpl. split.
    + unfold has. simpl. apply has_set_eq.
    + unfold getAllVertices at 1. simpl. destruct (has v g) eqn:Hv.
      * rewrite keys_set_absent by apply has_delete_eq. now rewrite keys_removed.
      * rewrite keys_set_absent by assumption. f_equal. symmetry.
        apply filter_other_keys. apply get_None_keys. now apply has_false_get.
Qed.

(** X10.  [removeVertex(v)] in the copy the tests import.  For [v] not in
    the graph it returns [false] and changes nothing.  For [v] in the
    graph it returns [true]; then [v] is gone, [getAllVertices] is the
    old list without [v], no edge starts or ends at [v], every edge
    between other vertices is as before, and the same call made again
    returns [false]. *)
Theorem replace_removeVertex_cascades g v :
  (has v g = false -> Replace.removeVertex v g = (Normal false, g)) /\
  (has v g = true ->
   exists g',
     Replace.removeVertex v g = (Normal true, g') /\
     has v g' = false /\
     getAllVertices g' =
     filter (fun k' => if eq_dec v k' then false else true) (getAllVertices g) /\
     getEdges v g' = [] /\
     (forall u w, ~ In (v, w) (getEdges u g')) /\
     (forall a b, a <> v -> b <> v -> edge a b g' = edge a b g) /\
     Replace.removeVertex v g' = (Normal false, g')).
Proof.
  split; [apply removeVertex_absent|]. intros Hv.
  destruct (replace_removeVertex_spec v g Hv)
    as (g' & Hrm & Hgone & _ & Hedges & _ & Hkeep).
  exists g'. split; [exact Hrm|]. split; [exact Hgone|].
  split; [|split; [|split; [|split]]].
  - rewrite removeVertex_present in Hrm by assumption. injection Hrm as <-.
    apply keys_removed.
  - apply (Hedges v).
  - intros u. apply (Hedges u).
  - exact Hkeep.
  - now apply removeVertex_absent.
Qed.

(** X11.  In the copy the tests import, after any sequence of calls on a
    new graph every pair that [getEdges] shows leads to a vertex of the
    graph, and [getWeight] on that pair returns its weight. *)
Theorem replace_edges_never_dangle g v1 v2 w :
  Replace.reachable g ->
  In (v2, w) (getEdges v1 g) ->
  has v2 g = true /\ returns w (Replace.getWeight v1 v2 g).
Proof.
  intros Hreach Hin.
  assert (H2 : has v2 g = true).
  { eapply (replace_reachable_no_dangling Hreach). eassumption. }
  split; [exact H2|]. unfold returns. rewrite replace_getWeight_cases, H2.
  apply replace_reachable_wf in Hreach.
  rewrite getEdges_entries in Hin. unfold edge, has, JsMap.has.
  destruct (JsMap.get v1 (adjList g)) as [m|] eqn:Hm; [|destruct Hin]. simpl.
  assert (Hm' : JsMap.wf m) by (eapply wf_inner; eauto).
  now rewrite (In_get v2 w Hm' Hin).
Qed.

(** X12.  Removing a vertex that was just added gives back the graph.
    With each key held once, no dangling edge and [v] not in the graph,
    [addVertex(v)] followed by [removeVertex(v)] returns [true] and leaves
    the graph exactly as it was before the two calls. *)
Theorem removeVertex_after_addVertex g v :
  wf g -> no_dangling g -> has v g = false ->
  Replace.removeVertex v (snd (Replace.addVertex v g)) = (Normal true, g).
Proof.
  intros [Ho _] Hnd Hv. rewrite replace_addVertex_eq, Hv. simpl.
  rewrite removeVertex_present by (unfold has; simpl; apply has_set_eq).
  f_equal. simpl. destruct g as [adj]. f_equal. simpl in *.
  assert (Hg : JsMap.get v adj = None) by now apply has_false_get.
  rewrite set_absent by assumption. rewrite map_app. simpl.
  destruct (eq_dec v v); [|congruence].
  assert (Hstrip : map (Replace.strip v) adj = adj).
  { rewrite <- (map_id adj) at 2. apply map_ext_in. intros [u m] Hin. simpl.
    destruct (eq_dec u v); auto. f_equal. apply delete_absent.
    destruct (JsMap.has v m) eqn:Hvm; auto.
    apply has_true_get in Hvm as [w Hw]. apply get_In in Hw.
    assert (Hhas : has v {| adjList := adj |} = true).
    { apply (Hnd u v w). rewrite getEdges_entries. simpl.
      now rewrite (In_get u m Ho Hin). }
    congruence. }
  rewrite Hstrip. unfold JsMap.delete. rewrite filter_app. simpl.
  destruct (eq_dec v v); [|congruence]. rewrite app_nil_r.
  now apply (delete_absent v adj).
Qed.

End VertexMethods.

(** [addVertex_new_vertex] on the graph of the test suite. *)
Lemma addVertex_new_vertex_witness :
  exists g',
    Replace.addVertex 3%Z Scenario.basic = (Normal g', g') /\
    getAllVertices g' = [2%Z; 5%Z; 3%Z] /\ edgeCount g' = 2.
Proof.
  destruct (@addVertex_new_vertex Z string Z_EqDec Scenario.basic 3%Z eq_refl)
    as (g' & Hadd & _ & Hall & _ & _ & _ & Hc).
  exists g'. split; [exact Hadd|]. split; [exact Hall | exact Hc].
Defined.

(** [replace_removeVertex_cascades] on the graph of the test suite. *)
Lemma replace_removeVertex_cascades_witness :
  Replace.removeVertex 1%Z Scenario.basic = (Normal false, Scenario.basic) /\
  exists g',
    Replace.removeVertex 2%Z Scenario.basic = (Normal true, g') /\
    getAllVertices g' = [5%Z] /\ getEdges 5%Z g' = [].
Proof.
  destruct (@replace_removeVertex_cascades Z string Z_EqDec Scenario.basic 1%Z) as [Habs _].
  destruct (@replace_removeVertex_cascades Z string Z_EqDec Scenario.basic 2%Z) as [_ Hpres].
  split; [apply Habs; reflexivity|].
  destruct (Hpres eq_refl) as (g' & Hrm & _ & Hall & _ & _ & _ & _).
  exists g'. split; [exact Hrm|]. split; [exact Hall|].
  vm_compute in Hrm. injection Hrm as <-. reflexivity.
Defined.

(** [replace_edges_never_dangle] on the graph of the test suite. *)
Lemma replace_edges_never_dangle_witness :
  has 5%Z Scenario.basic = true /\
  returns "2 -> 5" (Replace.getWeight 2%Z 5%Z Scenario.basic).
Proof.
  apply (@replace_edges_never_dangle Z string Z_EqDec Scenario.basic 2%Z 5%Z "2 -> 5").
  - eexists. reflexivity.
  - left. reflexivity.
Defined.

(** [removeVertex_after_addVertex] on the graph of the test suite. *)
Lemma removeVertex_after_addVertex_witness :
  Replace.removeVertex 3%Z (snd (Replace.addVertex 3%Z Scenario.basic))
  = (Normal true, Scenario.basic).
Proof.
  apply (@removeVertex_after_addVertex Z string Z_EqDec Scenario.basic 3%Z).
  - exact basic_wf.
  - apply replace_reachable_no_dangling. eexists. reflexivity.
  - reflexivity.
Defined.

(** ** Further properties of [src/dwg.ts] *)

Section StrictMethods.
Context {Vertex Weight : Type} `{EqDec Vertex} `{Truthy Weight}.
Implicit Types (g s : DWG Vertex Weight) (v d : Vertex) (w : Weight).

(** [d] has an edge [d -> v] that [removeEdge(d, v)] of [src/dwg.ts]
    takes: one with a truthy weight. *)
Local Abbreviation backed v d s := (exists w, edge d v s = Some w /\ truthy w = true).

Lemma strict_removeEdge_unbacked v d s :
  ~ backed v d s -> exists e, Strict.removeEdge d v s = (Throw e, s).
Proof.
  intros Hn. destruct (edge d v s) as [w|] eqn:He.
  - destruct (truthy w) eqn:Ht; [exfalso; apply Hn; exists w; auto|].
    eexists. now apply (strict_removeEdge_falsy d v s He Ht).
  - destruct (has d s) eqn:Hd; eexists.
    + now apply strict_removeEdge_no_weight.
    + now apply strict_removeEdge_no_origin.
Qed.

Lemma strict_removeEdge_backed v d s :
  backed v d s ->
  exists w s', Strict.removeEdge d v s = (Normal w, s') /\ without_edge d v s s'.
Proof.
  intros (w & He & Ht).
  destruct (strict_removeEdge_truthy d v s He Ht) as (m & Hm & Hr).
  exists w. eexists. split; [exact Hr|]. now apply delete_edge_post.
Qed.

(** The loop of [removeVertex(v)] over destinations [ks], all backed: it
    ends normally, the edges [d -> v] for [d] in [ks] are gone, and the
    vertices and the other edges are as before. *)
Lemma strict_loop_backed v ks :
  NoDup ks ->
  forall s, (forall d, In d ks -> backed v d s) ->
  exists s',
    for_of ks (fun destVertex => Strict.removeEdge destVertex v) s = (Normal tt, s') /\
    JsMap.keys (adjList s') = JsMap.keys (adjList s) /\
    (forall d, In d ks -> edge d v s' = None) /\
    (forall a b, ~ In a ks \/ b <> v -> edge a b s' = edge a b s).
Proof.
  induction 1 as [|d ks Hnotin Hnd IH]; intros s Hall; simpl.
  - exists s. repeat split; auto. intros d [].
  - destruct (@strict_removeEdge_backed v d s (Hall d (or_introl eq_refl)))
      as (w & s1 & Hr & Hgone & Hframe & Hkeys & _).
    destruct (IH s1) as (s' & Hloop & Hk' & Hnone & Hother).
    { intros d' Hd'. destruct (Hall d' (or_intror Hd')) as (w' & He' & Ht').
      exists w'. split; auto. rewrite Hframe; auto. left. congruence. }
    exists s'. unfold bind. rewrite Hr, Hloop. split; [reflexivity|].
    split; [|split].
    + unfold getAllVertices in Hkeys. congruence.
    + intros d' [<-|Hd']; [|auto]. rewrite Hother by (left; exact Hnotin). exact Hgone.
    + intros a b Hab. rewrite Hother by tauto. apply Hframe.
      destruct Hab as [Ha|Hb]; [left|right; exact Hb].
      intros ->. apply Ha. now left.
Qed.

(** One destination not backed: the loop throws. *)
Lemma strict_loop_unbacked v ks :
  NoDup ks ->
  forall s, (exists d, In d ks /\ ~ backed v d s) ->
  exists e s',
    for_of ks (fun destVertex => Strict.removeEdge destVertex v) s = (Throw e, s').
Proof.
  induction 1 as [|d ks Hnotin Hnd IH]; intros s (d0 & Hin & Hn); [destruct Hin|].
  simpl. unfold bind.
  destruct (edge d v s) as [w|] eqn:He; [destruct (truthy w) eqn:Ht|].
  - destruct (@strict_removeEdge_backed v d s) as (w' & s1 & Hr & _ & Hframe & _).
    { exists w. auto. }
    rewrite Hr. apply IH. exists d0. destruct Hin as [<-|Hin].
    + exfalso. apply Hn. exists w. auto.
    + split; [exact Hin|]. intros (w0 & He0 & Ht0). apply Hn. exists w0.
      split; auto. rewrite <- Hframe; auto. left. congruence.
  - rewrite (strict_removeEdge_falsy d v s He Ht). eauto.
  - destruct (@strict_removeEdge_unbacked v d s) as (e & ->); eauto.
    intros (w & Hw & _). congruence.
Qed.

Lemma strict_loop_keys v ks s :
  JsMap.keys (adjList (snd (for_of ks (fun destVertex => Strict.removeEdge destVertex v) s)))
  = JsMap.keys (adjList s).
Proof.
  apply (for_of_invariant
           (fun s' => JsMap.keys (adjList s') = JsMap.keys (adjList s))
           (fun destVertex => Strict.removeEdge destVertex v)); auto.
  intros x s' Hs'. now rewrite strict_removeEdge_keys.
Qed.

(** X13.  In [src/dwg.ts], [getWeight(v1, v2)] and [removeEdge(v1, v2)]
    return a weight exactly when an edge [v1 -> v2] with a truthy weight
    is stored, and it is that weight.  On an edge whose stored weight is
    falsy both throw the "Second vertex" error and the edge stays. *)
Theorem strict_weight_returned_iff_truthy g v1 v2 :
  (forall w, returns w (Strict.getWeight v1 v2 g) <->
             edge v1 v2 g = Some w /\ truthy w = true) /\
  (forall w, returns w (Strict.removeEdge v1 v2 g) <->
             edge v1 v2 g = Some w /\ truthy w = true) /\
  (forall w, edge v1 v2 g = Some w -> truthy w = false ->
             raises (UnknownVertexError destination) (Strict.getWeight v1 v2 g) /\
             raises (UnknownVertexError destination) (Strict.removeEdge v1 v2 g) /\
             snd (Strict.removeEdge v1 v2 g) = g).
Proof.
  split; [|split].
  - intros w. unfold returns, Strict.getWeight, edge. run_method.
    destruct (JsMap.get v1 (adjList g)) as [m|]; simpl;
      [|split; [discriminate | intros [? _]; discriminate]].
    destruct (JsMap.get v2 m) as [w'|]; simpl;
      [|split; [discriminate | intros [? _]; discriminate]].
    destruct (truthy w') eqn:Ht; simpl; split.
    + intros [= ->]. auto.
    + intros [[= ->] _]. reflexivity.
    + discriminate.
    + intros [[= ->] Ht']. congruence.
  - intros w. unfold returns, Strict.removeEdge, edge. run_method.
    destruct (JsMap.get v1 (adjList g)) as [m|]; simpl;
      [|split; [discriminate | intros [? _]; discriminate]].
    destruct (JsMap.get v2 m) as [w'|]; simpl;
      [|split; [discriminate | intros [? _]; discriminate]].
    destruct (truthy w') eqn:Ht; simpl; split.
    + intros [= ->]. auto.
    + intros [[= ->] _]. reflexivity.
    + discriminate.
    + intros [[= ->] Ht']. congruence.
  - intros w He Ht. rewrite (strict_removeEdge_falsy v1 v2 g He Ht).
    split; [|split; [eexists; split; reflexivity | reflexivity]].
    eexists. unfold Strict.getWeight, edge in *. run_method.
    destruct (JsMap.get v1 (adjList g)) as [m|]; [|discriminate].
    rewrite He, Ht. simpl. split; reflexivity.
Qed.

(** X14.  When [removeVertex(v)] of [src/dwg.ts] succeeds.  With each key
    held once and [v] in the graph with edge map [m]: if every
    destination [d] of an edge out of [v] has an edge [d -> v] with a
    truthy weight, the call returns [true], [v] is removed from the list
    of vertices, the edges [d -> v] are gone and the edges out of other
    vertices that do not end at [v] are as before; if one destination has
    no such edge back, the call throws and [v] is still in the graph. *)
Theorem strict_removeVertex_backed g v m :
  wf g -> JsMap.get v (adjList g) = Some m ->
  ((forall d, In d (JsMap.keys m) ->
              exists w, edge d v g = Some w /\ truthy w = true) ->
   exists g',
     Strict.removeVertex v g = (Normal true, g') /\
     has v g' = false /\
     getAllVertices g' =
     filter (fun k' => if eq_dec v k' then false else true) (getAllVertices g) /\
     (forall d, In d (JsMap.keys m) -> edge d v g' = None) /\
     (forall a b, a <> v -> b <> v -> edge a b g' = edge a b g)) /\
  ((exists d, In d (JsMap.keys m) /\
              ~ exists w, edge d v g = Some w /\ truthy w = true) ->
   exists e,
     fst (Strict.removeVertex v g) = Throw e /\
     has v (snd (Strict.removeVertex v g)) = true).
Proof.
  intros Hwf Hm.
  assert (Hnd : NoDup (JsMap.keys m)) by (eapply wf_inner; eauto).
  split.
  - intros Hall.
    destruct (@strict_loop_backed v _ Hnd g Hall) as (s' & Hloop & Hk & Hnone & Hother).
    eexists. split.
    { unfold Strict.removeVertex. run_method. rewrite Hm. simpl.
      unfold bind. rewrite Hloop. reflexivity. }
    assert (Hedge : forall a b, a <> v ->
              edge a b {| adjList := JsMap.delete v (adjList s') |} = edge a b s').
    { intros a b Ha. unfold edge. simpl. rewrite get_delete_ne by congruence.
      reflexivity. }
    split; [|split; [|split]].
    + unfold has. simpl. apply has_delete_eq.
    + unfold getAllVertices. simpl. rewrite keys_delete. now rewrite Hk.
    + intros d Hd. destruct (eq_dec d v) as [->|Hdv].
      * unfold edge. simpl. now rewrite get_delete_eq.
      * rewrite Hedge by assumption. now apply Hnone.
    + intros a b Ha Hb. rewrite Hedge by assumption. apply Hother. now right.
  - intros Hex.
    destruct (@strict_loop_unbacked v _ Hnd g Hex) as (e & s' & Hloop).
    pose proof (strict_loop_keys v (JsMap.keys m) g) as Hk.
    rewrite Hloop in Hk. simpl in Hk.
    exists e. unfold Strict.removeVertex. run_method. rewrite Hm. simpl.
    unfold bind. rewrite Hloop. simpl. split; [reflexivity|].
    unfold has. rewrite (has_of_keys v _ _ Hk). apply has_true_get. eauto.
Qed.

(** X15.  [removeVertex(v)] of [src/dwg.ts] and the other vertices.  For
    [v] not in the graph it returns [false] and changes nothing.  However
    it ends, every vertex other than [v] is in the graph after the call
    exactly if it was before. *)
Theorem strict_removeVertex_other_vertices g v :
  (has v g = false -> Strict.removeVertex v g = (Normal false, g)) /\
  (forall u, u <> v -> has u (snd (Strict.removeVertex v g)) = has u g).
Proof.
  split.
  - intros Hv. apply has_false_get in Hv. unfold Strict.removeVertex. run_method.
    unfold has in Hv. now rewrite Hv.
  - intros u Hu. unfold Strict.removeVertex. run_method.
    destruct (JsMap.get v (adjList g)) as [m|]; simpl; auto.
    pose proof (strict_loop_keys v (JsMap.keys m) g) as Hk. unfold bind.
    destruct (for_of (JsMap.keys m) (fun destVertex => Strict.removeEdge destVertex v) g)
      as [[[]|e] s']; simpl in *; unfold has; simpl.
    + rewrite has_delete_ne by congruence. now apply has_of_keys.
    + now apply has_of_keys.
Qed.

End StrictMethods.

Lemma basic_strict_wf : wf Scenario.basic_strict.
Proof. apply strict_reachable_wf. eexists. reflexivity. Qed.

Lemma one_edge_wf (w : string) : wf (Scenario.one_edge w).
Proof.
  apply strict_reachable_wf.
  exists [Strict.AddVertex 1%Z; Strict.AddVertex 2%Z; Strict.AddEdge 1%Z 2%Z w].
  reflexivity.
Qed.

(** [strict_weight_returned_iff_truthy] on the graph of the test suite
    and on an edge with the empty string as weight. *)
Lemma strict_weight_returned_iff_truthy_witness :
  returns "2 -> 5" (Strict.getWeight 2%Z 5%Z Scenario.basic_strict) /\
  returns "2 -> 5" (Strict.removeEdge 2%Z 5%Z Scenario.basic_strict) /\
  raises (UnknownVertexError destination)
         (Strict.getWeight 1%Z 2%Z (Scenario.one_edge "")) /\
  snd (Strict.removeEdge 1%Z 2%Z (Scenario.one_edge "")) = Scenario.one_edge "".
Proof.
  destruct (@strict_weight_returned_iff_truthy Z string Z_EqDec string_Truthy
              Scenario.basic_strict 2%Z 5%Z) as (Hget & Hrm & _).
  destruct (@strict_weight_returned_iff_truthy Z string Z_EqDec string_Truthy
              (Scenario.one_edge "") 1%Z 2%Z) as (_ & _ & Hfalsy).
  destruct (Hfalsy "" eq_refl eq_refl) as (Hg & _ & Hs).
  split; [apply Hget; split; reflexivity|].
  split; [apply Hrm; split; reflexivity|].
  split; [exact Hg | exact Hs].
Defined.

(** [strict_removeVertex_backed]: on the graph of the test suite, whose
    two edges mirror each other, [removeVertex(2)] succeeds; with the one
    edge [1 -> 2], [removeVertex(1)] throws and [1] stays. *)
Lemma strict_removeVertex_backed_witness :
  (exists g',
     Strict.removeVertex 2%Z Scenario.basic_strict = (Normal true, g') /\
     getAllVertices g' = [5%Z] /\ edge 5%Z 2%Z g' = None) /\
  (exists e,
     fst (Strict.removeVertex 1%Z (Scenario.one_edge "a")) = Throw e /\
     has 1%Z (snd (Strict.removeVertex 1%Z (Scenario.one_edge "a"))) = true).
Proof.
  destruct (@strict_removeVertex_backed Z string Z_EqDec string_Truthy
              Scenario.basic_strict 2%Z [(5%Z, "2 -> 5")] basic_strict_wf eq_refl)
    as [Hok _].
  destruct (@strict_removeVertex_backed Z string Z_EqDec string_Truthy
              (Scenario.one_edge "a") 1%Z [(2%Z, "a")] (one_edge_wf "a") eq_refl)
    as [_ Hthrow].
  split.
  - destruct Hok as (g' & Hrm & _ & Hall & Hnone & _).
    + intros d [<-|[]]. exists "5 -> 2". split; reflexivity.
    + exists g'. split; [exact Hrm|]. split; [exact Hall|].
      apply Hnone. left. reflexivity.
  - apply Hthrow. exists 2%Z. split; [left; reflexivity|].
    intros (w & Hw & _). vm_compute in Hw. discriminate Hw.
Defined.

(** [strict_removeVertex_other_vertices] on the graph of the test suite. *)
Lemma strict_removeVertex_other_vertices_witness :
  Strict.removeVertex 1%Z Scenario.basic_strict = (Normal false, Scenario.basic_strict) /\
  has 5%Z (snd (Strict.removeVertex 2%Z Scenario.basic_strict)) = true.
Proof.
  destruct (@strict_removeVertex_other_vertices Z string Z_EqDec string_Truthy
              Scenario.basic_strict 1%Z) as [Habs _].
  destruct (@strict_removeVertex_other_vertices Z string Z_EqDec string_Truthy
              Scenario.basic_strict 2%Z) as [_ Hoth].
  split; [apply Habs; reflexivity|].
  rewrite (Hoth 5%Z); [reflexivity | discriminate].
Defined.

(** [find_filter] on the graph of the test suite, with the filter
    [v => v === 2]. *)
Lemma find_filter_witness :
  find (Z.eqb 2) Scenario.basic = [2%Z] /\ In 2%Z (find (Z.eqb 2) Scenario.basic).
Proof.
  destruct (@find_filter Z string Z_EqDec (Z.eqb 2) Scenario.basic) as [Hf Hin].
  split; [exact Hf|]. apply Hin. split; reflexivity.
Defined.

(** ** Throws and bounds *)

Section Throws.
Context {Vertex Weight : Type} `{EqDec Vertex} `{Truthy Weight}.
Implicit Types (g : DWG Vertex Weight) (v : Vertex) (w : Weight) (e : exn).

(** X16.  A throw leaves the graph as it was.  In both copies, a call of
    [addVertex], [addEdge], [removeEdge] or [getWeight] that throws has
    written nothing; in the copy the tests import [addVertex] and
    [removeVertex] never throw. *)
Theorem throw_leaves_graph g v v1 v2 w e :
  (fst (Strict.addVertex v g) = Throw e -> snd (Strict.addVertex v g) = g) /\
  (fst (Strict.addEdge v1 v2 w g) = Throw e -> snd (Strict.addEdge v1 v2 w g) = g) /\
  (fst (Strict.removeEdge v1 v2 g) = Throw e -> snd (Strict.removeEdge v1 v2 g) = g) /\
  (fst (Strict.getWeight v1 v2 g) = Throw e -> snd (Strict.getWeight v1 v2 g) = g) /\
  (fst (Replace.addEdge v1 v2 w g) = Throw e -> snd (Replace.addEdge v1 v2 w g) = g) /\
  (fst (Replace.removeEdge v1 v2 g) = Throw e -> snd (Replace.removeEdge v1 v2 g) = g) /\
  (fst (Replace.getWeight v1 v2 g) = Throw e -> snd (Replace.getWeight v1 v2 g) = g) /\
  fst (Replace.addVertex v g) <> Throw e /\
  fst (Replace.removeVertex v g) <> Throw e.
Proof.
  assert (Hadd : forall (r : completion (DWG Vertex Weight) * DWG Vertex Weight),
            (has v1 g = false \/ has v2 g = false -> snd r = g) ->
            (has v1 g = true -> has v2 g = true -> exists g', r = (Normal g', g')) ->
            fst r = Throw e -> snd r = g).
  { intros r Hthrow Hok Hr. destruct (has v1 g) eqn:H1; [|auto].
    destruct (has v2 g) eqn:H2; [|auto].
    destruct (Hok eq_refl eq_refl) as [g' ->]. discriminate. }
  repeat apply conj.
  - destruct (has v g) eqn:Hv.
    + now rewrite strict_addVertex_present.
    + rewrite strict_addVertex_absent by assumption. discriminate.
  - apply Hadd.
    + intros [H1|H2].
      * now rewrite strict_addEdge_no_origin.
      * destruct (has v1 g) eqn:H1.
        -- now rewrite strict_addEdge_no_destination.
        -- now rewrite strict_addEdge_no_origin.
    + intros H1 H2. destruct (strict_addEdge_ok v1 v2 w g H1 H2) as (m & _ & ->). eauto.
  - destruct (edge v1 v2 g) as [w0|] eqn:He; [destruct (truthy w0) eqn:Ht|].
    + destruct (strict_removeEdge_truthy v1 v2 g He Ht) as (m & _ & ->). discriminate.
    + now rewrite (strict_removeEdge_falsy v1 v2 g He Ht).
    + destruct (has v1 g) eqn:H1.
      * now rewrite strict_removeEdge_no_weight.
      * now rewrite strict_removeEdge_no_origin.
  - intros _. apply strict_getWeight_state.
  - apply Hadd.
    + intros [H1|H2].
      * now rewrite replace_addEdge_no_origin.
      * destruct (has v1 g) eqn:H1.
        -- now rewrite replace_addEdge_no_destination.
        -- now rewrite replace_addEdge_no_origin.
    + intros H1 H2. destruct (replace_addEdge_ok v1 v2 w g H1 H2) as (m & _ & ->). eauto.
  - destruct (has v1 g) eqn:H1; [|now rewrite replace_removeEdge_no_origin].
    destruct (has v2 g) eqn:H2; [|now rewrite replace_removeEdge_no_destination].
    destruct (replace_removeEdge_ok v1 v2 g H1 H2) as (m & _ & ->). discriminate.
  - intros _. apply replace_getWeight_state.
  - rewrite replace_addVertex_eq. discriminate.
  - destruct (has v g) eqn:Hv.
    + rewrite removeVertex_present by assumption. discriminate.
    + rewrite removeVertex_absent by assumption. discriminate.
Qed.

(** X17.  In the copy the tests import, after any sequence of calls on a
    new graph there are at most [vertexCount * vertexCount] edges: every
    edge map holds each destination once and every destination is a
    vertex. *)
Theorem replace_edgeCount_bound g :
  Replace.reachable g -> edgeCount g <= vertexCount g * vertexCount g.
Proof.
  intros Hreach.
  pose proof (replace_reachable_wf Hreach) as [Ho Hi].
  pose proof (replace_reachable_no_dangling Hreach) as Hnd.
  assert (Hsize : forall u m, In (u, m) (adjList g) -> JsMap.size m <= vertexCount g).
  { intros u m Hin. unfold JsMap.size, vertexCount, JsMap.size.
    rewrite <- (length_map fst m), <- (length_map fst (adjList g)).
    apply NoDup_incl_length; [exact (Hi u m Hin)|].
    intros d Hd. apply in_map_iff in Hd as [[d' w] [<- Hdw]]. simpl.
    apply has_true_keys. apply (Hnd u d' w).
    rewrite getEdges_entries. now rewrite (In_get u m Ho Hin). }
  rewrite edgeCount_sum. unfold vertexCount at 1, JsMap.size.
  generalize (vertexCount g) Hsize. intros n. clear.
  induction (adjList g) as [|[u m] adj IH]; intros Hsize; simpl; [lia|].
  assert (JsMap.size m <= n) by (apply (Hsize u m); now left).
  assert (list_sum (map (@JsMap.size Vertex Weight) (JsMap.values adj))
          <= List.length adj * n) by (apply IH; intros; eapply Hsize; right; eauto).
  unfold JsMap.size in *. lia.
Qed.

End Throws.

(** [throw_leaves_graph] on the graph of the test suite, with the throwing
    calls of the test suite. *)
Lemma throw_leaves_graph_witness :
  snd (Replace.addEdge 1%Z 2%Z "foo" Scenario.basic) = Scenario.basic /\
  snd (Strict.removeEdge 2%Z 0%Z Scenario.basic_strict) = Scenario.basic_strict.
Proof.
  destruct (@throw_leaves_graph Z string Z_EqDec string_Truthy Scenario.basic 1%Z 1%Z 2%Z "foo"
              (ReferenceError "First vertex doesn't exist in the graph"))
    as (_ & _ & _ & _ & Hadd & _).
  destruct (@throw_leaves_graph Z string Z_EqDec string_Truthy Scenario.basic_strict 2%Z 2%Z 0%Z ""
              (ReferenceError "Second vertex doesn't exist in the graph"))
    as (_ & _ & Hrm & _).
  split; [apply Hadd; reflexivity | apply Hrm; reflexivity].
Defined.

(** [replace_edgeCount_bound] on the graph of the test suite. *)
Lemma replace_edgeCount_bound_witness :
  edgeCount Scenario.basic <= vertexCount Scenario.basic * vertexCount Scenario.basic.
Proof.
  apply (@replace_edgeCount_bound Z string Z_EqDec Scenario.basic).
  eexists. reflexivity.
Defined.
